(** * Intraday back-testing core

    A shallow embedding of the allocation and trade-simulation core of the
    back-testing system:

    - [StockAllocator.allocate_capital],
      [StockAllocator.validate_allocation] and
      [Expectancy.calculate_expectancy] from [stock_allocator.py];
    - [RealAlgorithmEngine.calculate_entry] and
      [RealAlgorithmEngine.simulate_trade] from [real_algorithm_engine.py];
    - the suggestion filter of [gemini_ai_engine.py] and
      [mistral_ai_engine.py], with the dictionary that
      [run_real_backtest.py] builds from a suggestion ([AIEngine]);
    - the rows of the summary sheets of [real_excel_reporter.py]
      ([Reporter]).

    Python floats are read as exact rationals ([Q]); every statement about
    numbers is therefore a statement about the real-number meaning of the
    arithmetic the program performs, with [==] the equality of rationals;
    the range of the doubles enters where [calculate_entry] turns a quotient
    into a whole number.
    Python dictionaries are finite maps from strings to dynamically typed
    values, living in a store addressed by references, so that two list
    entries may denote the same dictionary. *)

From Stdlib Require Import QArith Qround Qabs Qminmax Lqa ZArith Lia Ascii String.
From stdpp Require Import gmap strings list fin_maps.

Open Scope Q_scope.

(** ** Numbers *)

Module Num.

(** [x < y] and [x <= y] as booleans. *)
Definition Qltb (x y : Q) : bool :=
  match x ?= y with Lt => true | _ => false end.

Definition Qleb (x y : Q) : bool := Qle_bool x y.

(** [math.floor]. *)
Definition floor (x : Q) : Z := Qfloor x.

(** [int(x)] on a float: truncation toward zero. *)
Definition trunc (x : Q) : Z :=
  if Qltb x 0 then Qceiling x else Qfloor x.

(** [min(a, b)]: the first argument unless the second is strictly smaller. *)
Definition py_min (a b : Q) : Q := if Qltb b a then b else a.

(** [max(a, b)]: the first argument unless the second is strictly larger. *)
Definition py_max (a b : Q) : Q := if Qltb a b then b else a.

(** Rounding to the nearest integer, ties to the even neighbour. *)
Definition round_half_even (x : Q) : Z :=
  let f := Qfloor x in
  let r := x - inject_Z f in
  if Qltb r (1 # 2) then f
  else if Qltb (1 # 2) r then (f + 1)%Z
  else if Z.even f then f else (f + 1)%Z.

(** [round(x, 2)], on the exact value of [x].  Where the exact value lies
    half-way between two cents, the program rounds the double it holds,
    which may lie on either side; what is stated about a rounded amount is
    therefore a bound on its distance from the exact one wherever such a
    tie can matter. *)
Definition round2 (x : Q) : Q := inject_Z (round_half_even (x * 100)) / 100.

(** The range of the doubles: a result of magnitude [2^1024 - 2^970] or
    more is infinite, and [2^-1022] is the least positive normal number. *)
Definition overflow_at : Q := inject_Z (2 ^ 1024 - 2 ^ 970).


(** [sum(xs)]: left to right from [0]. *)
Definition Qsum (xs : list Q) : Q := fold_left Qplus xs 0.

End Num.

Import Num.

(** ** Python values, exceptions and the object store *)

Module Py.

Inductive exn : Type :=
| KeyError (k : string)
| TypeError
| ZeroDivisionError
| OverflowError
| IndexError
| InvalidRef.

Inductive result (A : Type) : Type :=
| Ok (a : A)
| Raise (e : exn).

Arguments Ok {A} a.
Arguments Raise {A} e.

(** Dictionary values: numbers, strings, and other objects (a data frame,
    a nested dictionary) that the allocator carries along untouched. *)
Inductive value : Type :=
| VNum (q : Q)
| VStr (s : string)
| VObj (o : positive).

Abbreviation pydict := (gmap string value).
Abbreviation loc := positive.
Abbreviation heap := (gmap positive (gmap string value)).

(** Computations that read and write the store and may raise. *)
Definition M (A : Type) : Type := heap → result (A * heap).

Definition ret {A} (a : A) : M A := fun h => Ok (a, h).

Definition raise {A} (e : exn) : M A := fun _ => Raise e.

Definition bind {A B} (c : M A) (k : A → M B) : M B :=
  fun h => match c h with
           | Ok (a, h') => k a h'
           | Raise e => Raise e
           end.

Notation "x <- c1 ;; c2" := (bind c1 (fun x => c2))
  (at level 100, c1 at next level, right associativity).
Notation "c1 ;; c2" := (bind c1 (fun _ => c2))
  (at level 100, right associativity).

(** [d[k]] on the dictionary referenced by [stock]. *)
Definition getitem (stock : loc) (k : string) : M value :=
  fun h => match h !! stock with
           | None => Raise InvalidRef
           | Some d => match d !! k with
                       | Some v => Ok (v, h)
                       | None => Raise (KeyError k)
                       end
           end.

(** [d[k] = v]: the referenced dictionary is updated in place. *)
Definition setitem (stock : loc) (k : string) (v : value) : M unit :=
  fun h => match h !! stock with
           | None => Raise InvalidRef
           | Some d => Ok (tt, <[stock := <[k := v]> d]> h)
           end.

(** Use of a value in arithmetic or in an ordering comparison. *)
Definition as_num (v : value) : M Q :=
  match v with
  | VNum q => ret q
  | _ => raise TypeError
  end.

Definition num_item (stock : loc) (k : string) : M Q :=
  v <- getitem stock k ;; as_num v.

(** [v == s] for a string literal [s]; never raises. *)
Definition eq_str (v : value) (s : string) : bool :=
  match v with
  | VStr s' => String.eqb s' s
  | _ => false
  end.

(** [x / y]. *)
Definition py_div (x y : Q) : M Q :=
  if Qeq_bool y 0 then raise ZeroDivisionError else ret (x / y).

(** [for x in xs: body]. *)
Fixpoint for_each {A} (xs : list A) (body : A → M unit) : M unit :=
  match xs with
  | [] => ret tt
  | x :: xs' => body x ;; for_each xs' body
  end.

(** [sum(f(x) for x in xs)], accumulated from [acc]. *)
Fixpoint sum_from {A} (acc : Q) (f : A → M Q) (xs : list A) : M Q :=
  match xs with
  | [] => ret acc
  | x :: xs' => v <- f x ;; sum_from (acc + v) f xs'
  end.

Definition sum_of {A} (f : A → M Q) (xs : list A) : M Q := sum_from 0 f xs.

(** [[x for x in xs if cond(x)]]. *)
Fixpoint select {A} (cond : A → M bool) (xs : list A) : M (list A) :=
  match xs with
  | [] => ret []
  | x :: xs' =>
      b <- cond x ;;
      rest <- select cond xs' ;;
      ret (if b then x :: rest else rest)
  end.

End Py.

Import Py.

(** ** The allocator ([stock_allocator.py]) *)

Module StockAllocator.

(** The attributes set by [__init__]. *)
Record t : Type := mk {
  total_capital : Q;
  basket_loss_percent : Q;
  basket_profit_percent : Q;
  risk_reward_ratio : Q;
  stop_loss_percent : Q;
  capital_cap_percent : Q
}.

Definition step1 (total_confidence : Q) (n : nat) (stock : loc) : M unit :=
  w <- (if Qltb 0 total_confidence
        then c <- num_item stock "confidence" ;; py_div c total_confidence
        else py_div 1 (inject_Z (Z.of_nat n))) ;;
  setitem stock "weight" (VNum w).

Definition step2 (max_basket_loss : Q) (stock : loc) : M unit :=
  w <- num_item stock "weight" ;;
  setitem stock "loss_cap" (VNum (max_basket_loss * w)).

(** The entry price is looked up first and the bias next; the price is used
    as a number only in the branch taken. *)
Definition step3 (self : t) (stock : loc) : M unit :=
  entry_value <- getitem stock "entry_price" ;;
  bias <- getitem stock "bias" ;;
  if eq_str bias "BULLISH" then
    entry <- as_num entry_value ;;
    setitem stock "stop_loss"
      (VNum (entry * (1 - stop_loss_percent self / 100))) ;;
    sl <- num_item stock "stop_loss" ;;
    let risk_per_share := entry - sl in
    setitem stock "target"
      (VNum (entry + risk_per_share * risk_reward_ratio self))
  else
    entry <- as_num entry_value ;;
    setitem stock "stop_loss"
      (VNum (entry * (1 + stop_loss_percent self / 100))) ;;
    sl <- num_item stock "stop_loss" ;;
    let risk_per_share := sl - entry in
    setitem stock "target"
      (VNum (entry - risk_per_share * risk_reward_ratio self)).

Definition step4 (stock : loc) : M unit :=
  entry <- num_item stock "entry_price" ;;
  sl <- num_item stock "stop_loss" ;;
  let risk_per_share := Qabs (entry - sl) in
  if Qltb 0 risk_per_share then
    lc <- num_item stock "loss_cap" ;;
    rq <- py_div lc risk_per_share ;;
    setitem stock "raw_quantity" (VNum rq)
  else
    setitem stock "raw_quantity" (VNum 0).

Definition step5 (max_capital_per_stock : Q) (stock : loc) : M unit :=
  entry <- num_item stock "entry_price" ;;
  rq <- num_item stock "raw_quantity" ;;
  lim <- (if Qltb 0 entry then py_div max_capital_per_stock entry
          else ret 0) ;;
  let capped_quantity := py_min rq lim in
  let floored_qty := floor capped_quantity in
  setitem stock "quantity"
    (VNum (inject_Z (if (0 <? floored_qty)%Z then floored_qty
                     else if Qleb entry max_capital_per_stock then 1%Z
                          else 0%Z))).

Definition cost (stock : loc) : M Q :=
  q <- num_item stock "quantity" ;;
  p <- num_item stock "entry_price" ;;
  ret (q * p).

Definition rescale (scale_factor : Q) (stock : loc) : M unit :=
  q <- num_item stock "quantity" ;;
  setitem stock "quantity" (VNum (inject_Z (floor (q * scale_factor)))).

Definition step7 (stock : loc) : M unit :=
  q <- num_item stock "quantity" ;;
  p <- num_item stock "entry_price" ;;
  setitem stock "capital_allocated" (VNum (q * p)) ;;
  q <- num_item stock "quantity" ;;
  p <- num_item stock "entry_price" ;;
  sl <- num_item stock "stop_loss" ;;
  setitem stock "max_loss" (VNum (q * Qabs (p - sl))) ;;
  q <- num_item stock "quantity" ;;
  tg <- num_item stock "target" ;;
  p <- num_item stock "entry_price" ;;
  setitem stock "target_profit" (VNum (q * Qabs (tg - p))).

Definition has_quantity (stock : loc) : M bool :=
  q <- num_item stock "quantity" ;; ret (Qltb 0 q).

(** [allocate_capital(self, stocks)]: the list holds references to the
    candidate dictionaries; the result holds references too. *)
Definition allocate_capital (self : t) (stocks : list loc) : M (list loc) :=
  if (length stocks =? 0)%nat then ret []
  else
    (* step 1: weights from confidence *)
    total_confidence <-
      sum_of (fun stock => num_item stock "confidence") stocks ;;
    for_each stocks (step1 total_confidence (length stocks)) ;;
    (* step 2: loss cap per stock *)
    let max_basket_loss :=
      total_capital self * (basket_loss_percent self / 100) in
    for_each stocks (step2 max_basket_loss) ;;
    (* step 3: stop and target *)
    for_each stocks (step3 self) ;;
    (* step 4: raw quantity from risk *)
    for_each stocks step4 ;;
    (* step 5: capital cap per stock *)
    let max_capital_per_stock :=
      total_capital self * (capital_cap_percent self / 100) in
    for_each stocks (step5 max_capital_per_stock) ;;
    (* step 6: total capital check and scaling *)
    capital_used <- sum_of cost stocks ;;
    (if Qltb (total_capital self) capital_used then
       scale_factor <- py_div (total_capital self) capital_used ;;
       for_each stocks (rescale scale_factor) ;;
       _ <- sum_of cost stocks ;;
       ret tt
     else ret tt) ;;
    (* step 7: final details, then drop the stocks without quantity *)
    for_each stocks step7 ;;
    select has_quantity stocks.




End StockAllocator.

(** ** Trade records and aggregate statistics *)

Module Trade.

Inductive exit_reason : Type := STOP_LOSS | TARGET | FORCE_EXIT_EOD.

Inductive outcome : Type := PROFIT | LOSS | BREAKEVEN.

(** The dictionary returned by [simulate_trade]. *)
Record t : Type := mk {
  date : string;
  symbol : string;
  bias : string;
  entry_time : string;
  entry_price : Q;
  exit_time : string;
  exit_price : Q;
  quantity : Z;
  invested_amount : Q;
  stop_loss : Q;
  target : Q;
  reason : exit_reason;
  gross_pnl : Q;
  transaction_cost : Q;
  net_pnl : Q;
  profit_or_loss : outcome
}.

End Trade.

Module Expectancy.

(** The dictionary returned by [calculate_expectancy]; the keys [wins] and
    [losses] exist only when the trade list is not empty. *)
Record t : Type := mk {
  win_rate : Q;
  avg_win : Q;
  avg_loss : Q;
  expectancy : Q;
  signal_strength : Q;
  total_trades : nat;
  wins : option nat;
  losses : option nat
}.

Definition len (xs : list Q) : Q := inject_Z (Z.of_nat (length xs)).

(** [calculate_expectancy(trades)]. *)
Definition calculate_expectancy (trades : list Trade.t) : t :=
  if (length trades =? 0)%nat then
    mk 0 0 0 0 0 0 None None
  else
    let pnls := map Trade.net_pnl trades in
    let wins := List.filter (fun x => Qltb 0 x) pnls in
    let losses := List.filter (fun x => Qltb x 0) pnls in
    let win_rate := len wins / len pnls in
    let loss_rate := len losses / len pnls in
    let avg_win :=
      if (length wins =? 0)%nat then 0 else Qsum wins / len wins in
    let avg_loss :=
      if (length losses =? 0)%nat then 0
      else Qabs (Qsum losses / len losses) in
    let expectancy := win_rate * avg_win - loss_rate * avg_loss in
    let signal_strength := py_max 0 expectancy in
    mk (win_rate * 100) avg_win avg_loss expectancy signal_strength
       (length trades) (Some (length wins)) (Some (length losses)).

End Expectancy.

(** ** The execution simulator ([real_algorithm_engine.py]) *)

Module RealAlgorithmEngine.

(** A time of day, in seconds since midnight. *)
Definition time : Type := Z.

Definition hms (h m s : Z) : time := (h * 3600 + m * 60 + s)%Z.

Definition digit_of (a : ascii) : option Z :=
  let n := Z.of_N (N_of_ascii a) in
  if ((48 <=? n) && (n <=? 57))%Z then Some (n - 48)%Z else None.

(** One field of a time string: one digit, or two digits below [bound]. *)
Definition time_field (bound : Z) (s : string) : option Z :=
  match s with
  | String a EmptyString => digit_of a
  | String a (String b EmptyString) =>
      match digit_of a, digit_of b with
      | Some x, Some y =>
          if (10 * x + y <? bound)%Z then Some (10 * x + y)%Z else None
      | _, _ => None
      end
  | _ => None
  end.

(** The pieces of [s] between colons. *)
Fixpoint split_colon (s : string) : list string :=
  match s with
  | EmptyString => [EmptyString]
  | String a s' =>
      if Ascii.eqb a ":"%char then EmptyString :: split_colon s'
      else match split_colon s' with
           | [] => [String a EmptyString]
           | w :: ws => String a w :: ws
           end
  end.

(** [datetime.strptime(s, '%H:%M:%S').time()]; [None] where Python raises
    [ValueError]. *)
Definition parse_time (s : string) : option time :=
  match split_colon s with
  | [h; m; sec] =>
      match time_field 24 h, time_field 60 m, time_field 60 sec with
      | Some h', Some m', Some s' => Some (hms h' m' s')
      | _, _, _ => None
      end
  | _ => None
  end.

(** A row of the candle frame; the four prices are finite numbers. *)
Record candle : Type := mkCandle {
  Time : string;
  Open : Q;
  High : Q;
  Low : Q;
  Close : Q;
  Volume : Z
}.

(** A data frame: rows in order, each with its index label. *)
Definition frame : Type := list (nat * candle).

(** [len(df)] and [df.iloc[i]]. *)
Definition iloc (df : frame) (i : nat) : option candle := snd <$> df !! i.

(** The attributes set by [__init__]; the four times are already parsed. *)
Record t : Type := mk {
  daily_capital : Q;
  capital_per_trade : Q;
  max_positions : nat;
  stop_loss_percent : Q;
  target_percent : Q;
  slippage_percent : Q;
  transaction_cost_percent : Q;
  market_open : time;
  entry_start : time;
  market_close : time;
  force_exit_time : time
}.

(** The dictionary returned by [calculate_entry] and read by
    [simulate_trade]. *)
Record entry : Type := mkEntry {
  symbol : string;
  entry_time : string;
  entry_price : Q;
  quantity : Z;
  bias : string;
  stop_loss : Q;
  target : Q;
  invested_amount : Q
}.

(** The first loop of [calculate_entry]: rows whose time does not parse are
    skipped. *)
Fixpoint find_entry_candle (self : t) (df : frame) : option candle :=
  match df with
  | [] => None
  | (_, c) :: rest =>
      match parse_time (Time c) with
      | None => find_entry_candle self rest
      | Some candle_time =>
          if (entry_start self <=? candle_time)%Z then Some c
          else find_entry_candle self rest
      end
  end.

Definition is_bullish (bias : string) : bool := String.eqb bias "BULLISH".

(** The price after slippage at entry. *)
Definition slipped_entry (self : t) (bias : string) (base_price : Q) : Q :=
  if is_bullish bias then base_price * (1 + slippage_percent self / 100)
  else base_price * (1 - slippage_percent self / 100).

(** Stop and target as [calculate_entry] derives them. *)
Definition entry_stop (self : t) (bias : string) (entry_price : Q) : Q :=
  if is_bullish bias then entry_price * (1 - stop_loss_percent self / 100)
  else entry_price * (1 + stop_loss_percent self / 100).

Definition entry_target (self : t) (bias : string) (entry_price : Q) : Q :=
  if is_bullish bias then entry_price * (1 + target_percent self / 100)
  else entry_price * (1 - target_percent self / 100).

(** [int(x)] of a quotient of floats: truncation toward zero; a quotient
    too large for a double is infinite, and [int] raises [OverflowError] on
    it. *)
Definition py_int (x : Q) : result Z :=
  if Qleb overflow_at (Qabs x) then Raise OverflowError else Ok (trunc x).

(** [calculate_entry(self, stock_symbol, candle_data, bias)]. *)
Definition calculate_entry (self : t) (stock_symbol : string)
    (candle_data : frame) (bias : string) : result (option entry) :=
  match find_entry_candle self candle_data with
  | None => Ok None
  | Some entry_candle =>
      let base_price := Open entry_candle in
      let entry_price := slipped_entry self bias base_price in
      if Qeq_bool entry_price 0 then Raise ZeroDivisionError
      else
        match py_int (capital_per_trade self / entry_price) with
        | Raise e => Raise e
        | Ok quantity =>
            if (quantity =? 0)%Z then Ok None
            else
              let stop_loss := entry_stop self bias entry_price in
              let target := entry_target self bias entry_price in
              let invested_amount := entry_price * inject_Z quantity in
              Ok (Some {| symbol := stock_symbol;
                          entry_time := Time entry_candle;
                          entry_price := round2 entry_price;
                          quantity := quantity;
                          bias := bias;
                          stop_loss := round2 stop_loss;
                          target := round2 target;
                          invested_amount := round2 invested_amount |})
        end
  end.

(** The first loop of [simulate_trade]: the index label of the first row
    whose time string equals [entry_time]. *)
Fixpoint find_entry_idx (entry_time : string) (df : frame) : option nat :=
  match df with
  | [] => None
  | (idx, c) :: rest =>
      if String.eqb (Time c) entry_time then Some idx
      else find_entry_idx entry_time rest
  end.

(** The scan of [simulate_trade] over the rows it visits, before slippage:
    exit price, exit time and exit reason of the first row that ends the
    trade. *)
Fixpoint scan (self : t) (bias : string) (stop_loss target : Q)
    (cs : list candle) : option (Q * string * Trade.exit_reason) :=
  match cs with
  | [] => None
  | c :: rest =>
      match parse_time (Time c) with
      | None => scan self bias stop_loss target rest
      | Some candle_time =>
          if (force_exit_time self <=? candle_time)%Z then
            Some (Close c, Time c, Trade.FORCE_EXIT_EOD)
          else if is_bullish bias then
            if Qleb (Low c) stop_loss then
              Some (stop_loss, Time c, Trade.STOP_LOSS)
            else if Qleb target (High c) then
              Some (target, Time c, Trade.TARGET)
            else scan self bias stop_loss target rest
          else
            if Qleb stop_loss (High c) then
              Some (stop_loss, Time c, Trade.STOP_LOSS)
            else if Qleb (Low c) target then
              Some (target, Time c, Trade.TARGET)
            else scan self bias stop_loss target rest
      end
  end.

(** The rows at positions [entry_idx + 1 .. len(df) - 1]. *)
Definition rows_after (entry_idx : nat) (df : frame) : list candle :=
  map snd (drop (S entry_idx) df).

(** Scan, then the fall-back on the last row of the frame. *)
Definition find_exit (self : t) (e : entry) (entry_idx : nat) (df : frame)
    : result (Q * string * Trade.exit_reason) :=
  match scan self (bias e) (stop_loss e) (target e) (rows_after entry_idx df)
  with
  | Some x => Ok x
  | None =>
      match last df with
      | Some (_, last_candle) =>
          Ok (Close last_candle, Time last_candle, Trade.FORCE_EXIT_EOD)
      | None => Raise IndexError
      end
  end.

(** The price after slippage at exit. *)
Definition slipped_exit (self : t) (bias : string) (exit_price : Q) : Q :=
  if is_bullish bias then exit_price * (1 - slippage_percent self / 100)
  else exit_price * (1 + slippage_percent self / 100).

Definition label (net_pnl : Q) : Trade.outcome :=
  if Qltb 0 net_pnl then Trade.PROFIT
  else if Qltb net_pnl 0 then Trade.LOSS
  else Trade.BREAKEVEN.

(** Profit and loss before rounding: gross, cost, net. *)
Definition gross_of (e : entry) (exit_price : Q) : Q :=
  if is_bullish (bias e) then
    (exit_price - entry_price e) * inject_Z (quantity e)
  else (entry_price e - exit_price) * inject_Z (quantity e).

Definition cost_of (self : t) (e : entry) : Q :=
  invested_amount e * 2 * (transaction_cost_percent self / 100).

Definition net_of (self : t) (e : entry) (exit_price : Q) : Q :=
  gross_of e exit_price - cost_of self e.

(** [simulate_trade(self, entry_details, candle_data, trade_date)]. *)
Definition simulate_trade (self : t) (entry_details : entry)
    (candle_data : frame) (trade_date : string)
    : result (option Trade.t) :=
  match find_entry_idx (entry_time entry_details) candle_data with
  | None => Ok None
  | Some entry_idx =>
      match find_exit self entry_details entry_idx candle_data with
      | Raise e => Raise e
      | Ok (exit_price, exit_time, exit_reason) =>
          let exit_price :=
            slipped_exit self (bias entry_details) exit_price in
          let gross_pnl := gross_of entry_details exit_price in
          let transaction_cost := cost_of self entry_details in
          let net_pnl := gross_pnl - transaction_cost in
          Ok (Some
            {| Trade.date := trade_date;
               Trade.symbol := symbol entry_details;
               Trade.bias := bias entry_details;
               Trade.entry_time := entry_time entry_details;
               Trade.entry_price := round2 (entry_price entry_details);
               Trade.exit_time := exit_time;
               Trade.exit_price := round2 exit_price;
               Trade.quantity := quantity entry_details;
               Trade.invested_amount :=
                 round2 (invested_amount entry_details);
               Trade.stop_loss := round2 (stop_loss entry_details);
               Trade.target := round2 (target entry_details);
               Trade.reason := exit_reason;
               Trade.gross_pnl := round2 gross_pnl;
               Trade.transaction_cost := round2 transaction_cost;
               Trade.net_pnl := round2 net_pnl;
               Trade.profit_or_loss := label net_pnl |})
      end
  end.

End RealAlgorithmEngine.

(** ** Notions used in the statements *)

Module Spec.

Import RealAlgorithmEngine.

(** The winning and the losing net results of a list of trades. *)
Definition positive_pnls (trades : list Trade.t) : list Q :=
  List.filter (fun x => Qltb 0 x) (map Trade.net_pnl trades).

Definition negative_pnls (trades : list Trade.t) : list Q :=
  List.filter (fun x => Qltb x 0) (map Trade.net_pnl trades).

(** A candle crosses the stop level, or the target level, of a position. *)
Definition stop_hit (bias : string) (stop_loss : Q) (c : candle) : Prop :=
  if is_bullish bias then Low c <= stop_loss else stop_loss <= High c.

Definition target_hit (bias : string) (target : Q) (c : candle) : Prop :=
  if is_bullish bias then target <= High c else Low c <= target.

Definition crosses_both (bias : string) (stop_loss target : Q)
    (c : candle) : Prop :=
  stop_hit bias stop_loss c ∧ target_hit bias target c.

(** A candle that ends nothing: its time does not parse, or it lies before
    the forced exit and crosses neither level. *)
Definition quiet (self : t) (bias : string) (stop_loss target : Q)
    (c : candle) : Prop :=
  match parse_time (Time c) with
  | None => True
  | Some candle_time =>
      (candle_time < force_exit_time self)%Z
      ∧ ¬ stop_hit bias stop_loss c
      ∧ ¬ target_hit bias target c
  end.

(** A candle at or after the entry start time. *)
Definition enterable (self : t) (c : candle) : Prop :=
  ∃ candle_time,
    parse_time (Time c) = Some candle_time
    ∧ (entry_start self <= candle_time)%Z.

(** [c] is the first enterable candle of the frame. *)
Definition first_enterable (self : t) (df : frame) (c : candle) : Prop :=
  ∃ pre post,
    map snd df = pre ++ c :: post
    ∧ Forall (fun c' => ¬ enterable self c') pre
    ∧ enterable self c.

(** The exit that a candle causes when the scan reaches it: a forced exit
    at its close from the forced exit time on, otherwise the stop if it is
    crossed, otherwise the target if it is crossed. *)
Definition decides (self : t) (bias : string) (stop_loss target : Q)
    (c : candle) (x : Q * string * Trade.exit_reason) : Prop :=
  ∃ candle_time,
    parse_time (Time c) = Some candle_time
    ∧ ((force_exit_time self <= candle_time)%Z
       ∧ x = (Close c, Time c, Trade.FORCE_EXIT_EOD)
       ∨ (candle_time < force_exit_time self)%Z
         ∧ stop_hit bias stop_loss c
         ∧ x = (stop_loss, Time c, Trade.STOP_LOSS)
       ∨ (candle_time < force_exit_time self)%Z
         ∧ ¬ stop_hit bias stop_loss c
         ∧ target_hit bias target c
         ∧ x = (target, Time c, Trade.TARGET)).

(** What [simulate_trade] returns once the entry row and the exit are
    known. *)
Definition record_of (self : t) (e : entry) (trade_date : string)
    (px : Q) (tm : string) (rs : Trade.exit_reason) : Trade.t :=
  let exit_price := slipped_exit self (bias e) px in
  {| Trade.date := trade_date;
     Trade.symbol := symbol e;
     Trade.bias := bias e;
     Trade.entry_time := entry_time e;
     Trade.entry_price := round2 (entry_price e);
     Trade.exit_time := tm;
     Trade.exit_price := round2 exit_price;
     Trade.quantity := quantity e;
     Trade.invested_amount := round2 (invested_amount e);
     Trade.stop_loss := round2 (stop_loss e);
     Trade.target := round2 (target e);
     Trade.reason := rs;
     Trade.gross_pnl := round2 (gross_of e exit_price);
     Trade.transaction_cost := round2 (cost_of self e);
     Trade.net_pnl := round2 (net_of self e exit_price);
     Trade.profit_or_loss := label (net_of self e exit_price) |}.

(** A suggestion that the filter of the AI engines keeps. *)
Definition well_formed (s : pydict) : Prop :=
  (∃ c, s !! "confidence" = Some (VNum c) ∧ 0 <= c ∧ c <= 100)
  ∧ (s !! "bias" = Some (VStr "BULLISH")
     ∨ s !! "bias" = Some (VStr "BEARISH"))
  ∧ is_Some (s !! "symbol") ∧ is_Some (s !! "reason").

End Spec.

(** ** Sample data *)

Module Sample.

(** A trade record of which only the net result matters. *)
Definition trade_of_pnl (x : Q) : Trade.t :=
  Trade.mk "2024-01-02" "X" "BULLISH" "09:20:00" 100 "15:15:00" 100 1 100
           98 104 Trade.FORCE_EXIT_EOD x 0 x
           (RealAlgorithmEngine.label x).

(** The values of [ALGORITHM_CONFIG]. *)
Definition engine : RealAlgorithmEngine.t :=
  RealAlgorithmEngine.mk 50000 10000 5 2 4 (1 # 10) (5 # 100)
    (RealAlgorithmEngine.hms 9 15 0) (RealAlgorithmEngine.hms 9 20 0)
    (RealAlgorithmEngine.hms 15 30 0) (RealAlgorithmEngine.hms 15 15 0).

Definition allocator : StockAllocator.t :=
  StockAllocator.mk 50000 2 4 2 2 30.

Definition row (tm : string) (o h l c : Q) : RealAlgorithmEngine.candle :=
  RealAlgorithmEngine.mkCandle tm o h l c 1000.

(** A long position entered at 100 with stop 98 and target 104. *)
Definition long_100 : RealAlgorithmEngine.entry :=
  RealAlgorithmEngine.mkEntry "X" "09:20:00" 100 99 "BULLISH" 98 104 9900.

(** A short position entered at 100 with stop 102 and target 96. *)
Definition short_100 : RealAlgorithmEngine.entry :=
  RealAlgorithmEngine.mkEntry "X" "09:20:00" 100 99 "BEARISH" 102 96 9900.

(** A day on which the third bar after the open spans both 97 and 105. *)
Definition wide_bar_day : RealAlgorithmEngine.frame :=
  [(0, row "09:15:00" 100 101 99 100);
   (1, row "09:20:00" 100 101 99 100);
   (2, row "09:25:00" 100 (203 # 2) (199 # 2) 101);
   (3, row "09:30:00" 101 105 97 99);
   (4, row "09:35:00" 99 100 98 99)]%nat.

(** A day whose data stop right after the entry bar. *)
Definition short_day : RealAlgorithmEngine.frame :=
  [(0, row "09:15:00" 100 101 99 100);
   (1, row "09:20:00" 100 101 99 (201 # 2))]%nat.


(** A day whose entry bar opens at 0, and one whose entry bar opens at
    [2^-1020]. *)
Definition free_day : RealAlgorithmEngine.frame :=
  [(0, row "09:20:00" 0 1 0 1)]%nat.

Definition dust_day : RealAlgorithmEngine.frame :=
  [(0, row "09:20:00" (1 / inject_Z (2 ^ 1020)) 1 0 1)]%nat.


(** A candidate as the day orchestrator builds it. *)
Definition candidate_dict (sym : string) (p c : Q) (b : string) : pydict :=
  <["symbol" := VStr sym]>
    (<["entry_price" := VNum p]>
       (<["confidence" := VNum c]>
          (<["bias" := VStr b]> (<["stock_data" := VObj 1]> ∅)))).

(** Three candidates with confidences 90, 60 and 30; the third is priced
    above the cap per stock. *)
Definition basket : heap :=
  <[1%positive := candidate_dict "A" 100 90 "BULLISH"]>
    (<[2%positive := candidate_dict "B" 250 60 "BEARISH"]>
       (<[3%positive := candidate_dict "C" 20000 30 "BULLISH"]> ∅)).

Definition basket_refs : list loc := [1; 2; 3]%positive.

(** One candidate that carries all the confidence and three, priced at the
    cap per stock, that carry none: step 5 gives each of the three one share
    and the basket has to be scaled down. *)
Definition crowded : heap :=
  <[1%positive := candidate_dict "A" 100 100 "BULLISH"]>
    (<[2%positive := candidate_dict "B" 15000 0 "BULLISH"]>
       (<[3%positive := candidate_dict "C" 15000 0 "BEARISH"]>
          (<[4%positive := candidate_dict "D" 15000 0 "BULLISH"]> ∅))).

Definition crowded_refs : list loc := [1; 2; 3; 4]%positive.

(** The basket with the second dictionary short of one key. *)
Definition basket_without (k : string) : heap :=
  <[2%positive := delete k (candidate_dict "B" 250 60 "BEARISH")]> basket.

(** The basket with a string as the second confidence. *)
Definition basket_with_text : heap :=
  <[2%positive := <["confidence" := VStr "high"]>
                    (candidate_dict "B" 250 60 "BEARISH")]> basket.

End Sample.

(** ** The effect of the allocator on one dictionary

    Every loop of [allocate_capital] rewrites the dictionaries of the list
    one by one, each from its own fields and from values fixed before the
    loop.  The functions below give that effect on a single dictionary. *)

Module Sizing.

Import StockAllocator.

(** The number stored under [k]; 0 where there is none. *)
Definition num (d : pydict) (k : string) : Q :=
  match d !! k with
  | Some (VNum q) => q
  | _ => 0
  end.

Definition is_num (d : pydict) (k : string) : Prop :=
  ∃ q, d !! k = Some (VNum q).

Definition long (d : pydict) : bool :=
  match d !! "bias" with
  | Some v => eq_str v "BULLISH"
  | None => false
  end.

(** What [allocate_capital] reads from a candidate. *)
Definition candidate (d : pydict) : Prop :=
  is_num d "confidence" ∧ is_num d "entry_price" ∧ is_Some (d !! "bias").

Section PerStock.

Variable self : t.
Variable total_confidence : Q.
Variable n : nat.

Definition weight_of (d : pydict) : Q :=
  if Qltb 0 total_confidence then num d "confidence" / total_confidence
  else 1 / inject_Z (Z.of_nat n).

Definition max_basket_loss : Q :=
  total_capital self * (basket_loss_percent self / 100).

Definition max_capital_per_stock : Q :=
  total_capital self * (capital_cap_percent self / 100).


Definition stop_of (d : pydict) : Q :=
  if long d then num d "entry_price" * (1 - stop_loss_percent self / 100)
  else num d "entry_price" * (1 + stop_loss_percent self / 100).




(** Steps 1 to 5. *)
Definition weighted (d : pydict) : pydict :=
  <["weight" := VNum (weight_of d)]> d.

Definition capped (d : pydict) : pydict :=
  <["loss_cap" := VNum (max_basket_loss * num d "weight")]> d.

Definition levelled (d : pydict) : pydict :=
  let entry := num d "entry_price" in
  if long d then
    let sl := entry * (1 - stop_loss_percent self / 100) in
    <["target" := VNum (entry + (entry - sl) * risk_reward_ratio self)]>
      (<["stop_loss" := VNum sl]> d)
  else
    let sl := entry * (1 + stop_loss_percent self / 100) in
    <["target" := VNum (entry - (sl - entry) * risk_reward_ratio self)]>
      (<["stop_loss" := VNum sl]> d).

Definition risked (d : pydict) : pydict :=
  let risk_per_share := Qabs (num d "entry_price" - num d "stop_loss") in
  <["raw_quantity" :=
      VNum (if Qltb 0 risk_per_share
            then num d "loss_cap" / risk_per_share else 0)]> d.

Definition counted (d : pydict) : pydict :=
  let entry := num d "entry_price" in
  let lim :=
    if Qltb 0 entry then max_capital_per_stock / entry else 0 in
  let floored_qty := floor (py_min (num d "raw_quantity") lim) in
  <["quantity" :=
      VNum (inject_Z (if (0 <? floored_qty)%Z then floored_qty
                      else if Qleb entry max_capital_per_stock then 1%Z
                           else 0%Z))]> d.


End PerStock.

(** Step 6, one pass over a dictionary. *)
Definition rescaled (scale_factor : Q) (d : pydict) : pydict :=
  <["quantity" :=
      VNum (inject_Z (floor (num d "quantity" * scale_factor)))]> d.

(** Step 7. *)
Definition finalized (d : pydict) : pydict :=
  let q := num d "quantity" in
  let p := num d "entry_price" in
  <["target_profit" := VNum (q * Qabs (num d "target" - p))]>
    (<["max_loss" := VNum (q * Qabs (p - num d "stop_loss"))]>
       (<["capital_allocated" := VNum (q * p)]> d)).

Definition cost_of (d : pydict) : Q := num d "quantity" * num d "entry_price".

(** A loop that rewrites the dictionaries of the list in turn; a dictionary
    listed twice is rewritten twice. *)
Definition apply_all (g : pydict → pydict) (stocks : list loc) (h : heap)
    : heap :=
  foldl (fun h' l => alter g l h') h stocks.

(** The number of times [l] is listed. *)
Definition occurrences (l : loc) (stocks : list loc) : nat :=
  count_occ Pos.eq_dec stocks l.

(** The fields of the referenced dictionary, in the store. *)
Definition field (h : heap) (l : loc) (k : string) : Q :=
  match h !! l with
  | Some d => num d k
  | None => 0
  end.

(** Dictionaries that are candidates and hold numbers under [ks]. *)
Definition has_nums (ks : list string) (d : pydict) : Prop :=
  candidate d ∧ Forall (is_num d) ks.

(** All the listed references point to dictionaries with property [P]. *)
Definition all_are (P : pydict → Prop) (ls : list loc) (h : heap) : Prop :=
  ∀ l, l ∈ ls → ∃ d, h !! l = Some d ∧ P d.

(** [sum(v(stock) for stock in stocks)] read off the store. *)
Definition total_of (v : pydict → Q) (stocks : list loc) (h : heap) : Q :=
  Qsum (map (fun l => match h !! l with Some d => v d | None => 0 end)
          stocks).

(** The store after steps 1 to 5, after step 6, and at the end. *)
Definition after_step5 (self : t) (stocks : list loc) (h : heap) : heap :=
  let total_confidence :=
    total_of (fun d => num d "confidence") stocks h in
  apply_all (counted self) stocks
    (apply_all risked stocks
       (apply_all (levelled self) stocks
          (apply_all (capped self) stocks
             (apply_all (weighted total_confidence (length stocks)) stocks
                h)))).

Definition after_scaling (self : t) (stocks : list loc) (h5 : heap) : heap :=
  let capital_used := total_of cost_of stocks h5 in
  if Qltb (total_capital self) capital_used then
    apply_all (rescaled (total_capital self / capital_used)) stocks h5
  else h5.

Definition final_store (self : t) (stocks : list loc) (h : heap) : heap :=
  apply_all finalized stocks
    (after_scaling self stocks (after_step5 self stocks h)).




(** The references that [allocate_capital] returns. *)
Definition allocated (self : t) (stocks : list loc) (h : heap) : list loc :=
  List.filter
    (fun l => match final_store self stocks h !! l with
              | Some d => Qltb 0 (num d "quantity")
              | None => false
              end)
    stocks.



End Sizing.

(** ** The suggestion filter of the AI engines ([gemini_ai_engine.py],
    [mistral_ai_engine.py]) and the dictionary the day orchestrator builds
    from a suggestion ([run_real_backtest.py]) *)

Module AIEngine.

Definition required_fields : list string :=
  ["symbol"; "confidence"; "bias"; "reason"].

(** [field in suggestion]. *)
Definition has_key (suggestion : pydict) (k : string) : bool :=
  match suggestion !! k with
  | Some _ => true
  | None => false
  end.

(** [suggestion[k]], outside the store. *)
Definition item (suggestion : pydict) (k : string) : result value :=
  match suggestion !! k with
  | Some v => Ok v
  | None => Raise (KeyError k)
  end.

(** [_validate_suggestion(self, suggestion)]; the same in both engines. *)
Definition _validate_suggestion (suggestion : pydict) : result bool :=
  if negb (forallb (has_key suggestion) required_fields) then Ok false
  else
    match item suggestion "confidence" with
    | Raise e => Raise e
    | Ok (VNum confidence) =>
        if negb (Qleb 0 confidence && Qleb confidence 100) then Ok false
        else
          match item suggestion "bias" with
          | Raise e => Raise e
          | Ok bias =>
              if negb (eq_str bias "BULLISH" || eq_str bias "BEARISH")
              then Ok false
              else Ok true
          end
    | Ok _ => Raise TypeError
    end.

(** The validation loop of [suggest_stocks]. *)
Fixpoint validation_loop (suggestions validated : list pydict)
    : result (list pydict) :=
  match suggestions with
  | [] => Ok validated
  | suggestion :: rest =>
      match _validate_suggestion suggestion with
      | Raise e => Raise e
      | Ok true => validation_loop rest (validated ++ [suggestion])
      | Ok false => validation_loop rest validated
      end
  end.

(** What [suggest_stocks] returns for the parsed suggestions: the validated
    ones, or nothing when the loop raised ([except Exception: return []]). *)
Definition validated_suggestions (suggestions : list pydict)
    : list pydict :=
  match validation_loop suggestions [] with
  | Ok validated => validated
  | Raise _ => []
  end.

(** The dictionary appended to [stocks_for_allocation]. *)
Definition stock_for_allocation (suggestion : pydict) (entry_price : Q)
    (stock_data entry_details : positive) : result pydict :=
  match item suggestion "symbol" with
  | Raise e => Raise e
  | Ok stock_symbol =>
      match item suggestion "bias" with
      | Raise e => Raise e
      | Ok bias =>
          match item suggestion "confidence" with
          | Raise e => Raise e
          | Ok confidence =>
              Ok (<["symbol" := stock_symbol]>
                    (<["entry_price" := VNum entry_price]>
                       (<["confidence" := confidence]>
                          (<["bias" := bias]>
                             (<["stock_data" := VObj stock_data]>
                                (<["entry_details" := VObj entry_details]>
                                   (<["ai_reason" :=
                                        default (VStr "N/A")
                                          (suggestion !! "reason")]>
                                      ∅)))))))
          end
      end
  end.

End AIEngine.

(** ** The summary sheets ([real_excel_reporter.py]) *)

Module Reporter.

(** [round(x, 1)]. *)
Definition round1 (x : Q) : Q := inject_Z (round_half_even (x * 10)) / 10.

(** [len(xs)] as a number, and the pandas [mean] of a series. *)
Definition count (xs : list Q) : Q := inject_Z (Z.of_nat (length xs)).

Definition mean (xs : list Q) : Q := Qsum xs / count xs.

(** The selections [s[s > 0]] and [s[s < 0]] of a series. *)
Definition above (xs : list Q) : list Q := List.filter (fun x => Qltb 0 x) xs.

Definition below (xs : list Q) : list Q := List.filter (fun x => Qltb x 0) xs.

(** A row of the sheet [Daily Summary]. *)
Record daily_row : Type := mkDaily {
  Date : string;
  DayPromptType : string;
  DayTrades : nat;
  CapitalStart : Q;
  CapitalInvested : Q;
  CapitalEnd : Q;
  Profit : Q;
  Loss : Q;
  DailyPnL : Q;
  DayStatus : Trade.outcome
}.

(** The body of the loop of [_create_daily_summary] over the groups of
    trades of one date and prompt type. *)
Definition daily_result (daily_capital : Q) (date prompt_type : string)
    (group : list Trade.t) : daily_row :=
  let net_pnl := map Trade.net_pnl group in
  let total_trades := length group in
  let capital_invested := Qsum (map Trade.invested_amount group) in
  let profit := Qsum (above net_pnl) in
  let loss := Qabs (Qsum (below net_pnl)) in
  let daily_pnl := Qsum net_pnl in
  let capital_start := daily_capital in
  let capital_end := capital_start + daily_pnl in
  let day_status :=
    if Qltb 0 daily_pnl then Trade.PROFIT
    else if Qltb daily_pnl 0 then Trade.LOSS
    else Trade.BREAKEVEN in
  mkDaily date prompt_type total_trades (round2 capital_start)
    (round2 capital_invested) (round2 capital_end) (round2 profit)
    (round2 loss) (round2 daily_pnl) day_status.

(** [group.groupby('date')['net_pnl'].sum()]: one sum for each date that
    occurs in the group. *)
Definition daily_pnl_of (group : list Trade.t) : list Q :=
  map (fun d =>
         Qsum (map Trade.net_pnl
                 (List.filter (fun t => String.eqb (Trade.date t) d) group)))
    (remove_dups (map Trade.date group)).

(** A row of the sheet [Prompt Performance]. *)
Record performance_row : Type := mkPerformance {
  PromptType : string;
  TotalTrades : nat;
  WinRate : Q;
  TotalDays : nat;
  ProfitableDays : nat;
  LosingDays : nat;
  AvgWin : Q;
  AvgLoss : Q;
  Expectancy : Q;
  SignalStrength : Q;
  TotalInvested : Q;
  TotalProfit : Q;
  TotalLoss : Q;
  NetProfitLoss : Q
}.

(** The body of the loop of [_create_prompt_performance] over the groups
    of trades of one prompt type. *)
Definition prompt_performance (prompt_type : string)
    (group : list Trade.t) : performance_row :=
  let net_pnl := map Trade.net_pnl group in
  let daily_pnl := daily_pnl_of group in
  let total_trades := length group in
  let total_days := length daily_pnl in
  let profitable_days := length (above daily_pnl) in
  let losing_days := length (below daily_pnl) in
  let winning_trades := count (above net_pnl) in
  let losing_trades := count (below net_pnl) in
  let win_rate :=
    if (0 <? total_trades)%nat
    then winning_trades / inject_Z (Z.of_nat total_trades) * 100 else 0 in
  let wins := above net_pnl in
  let losses := below net_pnl in
  let avg_win := if (0 <? length wins)%nat then mean wins else 0 in
  let avg_loss :=
    if (0 <? length losses)%nat then Qabs (mean losses) else 0 in
  let loss_rate :=
    if (0 <? total_trades)%nat
    then losing_trades / inject_Z (Z.of_nat total_trades) else 0 in
  let expectancy := win_rate / 100 * avg_win - loss_rate * avg_loss in
  let signal_strength := py_max 0 expectancy in
  let total_invested := Qsum (map Trade.invested_amount group) in
  let total_profit := Qsum (above net_pnl) in
  let total_loss := Qabs (Qsum (below net_pnl)) in
  let net_outcome := Qsum net_pnl in
  mkPerformance prompt_type total_trades (round1 win_rate) total_days
    profitable_days losing_days (round2 avg_win) (round2 avg_loss)
    (round2 expectancy) (round2 signal_strength) (round2 total_invested)
    (round2 total_profit) (round2 total_loss) (round2 net_outcome).

End Reporter.

(** * Properties *)

(** ** Arithmetic helpers *)

(** Percentages: division by 100 as a multiplication, for [lra]. *)
Ltac pct := unfold Qdiv in *; change (/ 100) with (1 # 100) in *.

Section NumFacts.

Lemma Qltb_true (x y : Q) : Qltb x y = true ↔ x < y.
Proof.
  unfold Qltb. rewrite Qlt_alt. destruct (x ?= y); split; congruence.
Qed.

Lemma Qltb_false (x y : Q) : Qltb x y = false ↔ y <= x.
Proof.
  split; intros H.
  - apply Qnot_lt_le. intros Hlt. apply Qltb_true in Hlt. congruence.
  - destruct (Qltb x y) eqn:E; [|reflexivity].
    apply Qltb_true in E. exfalso. exact (Qlt_not_le _ _ E H).
Qed.

Lemma Qleb_true (x y : Q) : Qleb x y = true ↔ x <= y.
Proof. apply Qle_bool_iff. Qed.

Lemma Qleb_false (x y : Q) : Qleb x y = false ↔ y < x.
Proof.
  split; intros H.
  - apply Qnot_le_lt. intros Hle. apply Qleb_true in Hle. congruence.
  - destruct (Qleb x y) eqn:E; [|reflexivity].
    apply Qleb_true in E. exfalso. exact (Qlt_not_le _ _ H E).
Qed.

Lemma Qeq_bool_false (x y : Q) : Qeq_bool x y = false ↔ ¬ x == y.
Proof.
  split; intros H.
  - intros E. apply Qeq_bool_iff in E. congruence.
  - destruct (Qeq_bool x y) eqn:E; [|reflexivity].
    apply Qeq_bool_iff in E. contradiction.
Qed.

Lemma fold_Qplus_acc (xs : list Q) (a : Q) :
  fold_left Qplus xs a == a + fold_left Qplus xs 0.
Proof.
  revert a. induction xs as [|x xs IH]; intros a; simpl.
  - lra.
  - rewrite (IH (a + x)), (IH (0 + x)). lra.
Qed.

Lemma Qsum_nil : Qsum [] == 0.
Proof. reflexivity. Qed.

Lemma Qsum_cons (x : Q) (xs : list Q) : Qsum (x :: xs) == x + Qsum xs.
Proof. unfold Qsum. simpl. rewrite fold_Qplus_acc. lra. Qed.

Lemma len_nil : Expectancy.len [] == 0.
Proof. reflexivity. Qed.

Lemma len_cons (x : Q) (xs : list Q) :
  Expectancy.len (x :: xs) == 1 + Expectancy.len xs.
Proof.
  unfold Expectancy.len. simpl length.
  rewrite Nat2Z.inj_succ, <- Z.add_1_l, inject_Z_plus. reflexivity.
Qed.

Lemma len_nonneg (xs : list Q) : 0 <= Expectancy.len xs.
Proof.
  induction xs as [|x xs IH]; [rewrite len_nil | rewrite len_cons]; lra.
Qed.

Lemma len_pos (xs : list Q) : xs ≠ [] → 0 < Expectancy.len xs.
Proof.
  destruct xs as [|x xs]; [congruence|]. intros _.
  rewrite len_cons. pose proof (len_nonneg xs). lra.
Qed.

End NumFacts.

(** ** Expectancy *)

Section ExpectancyFacts.

Import Expectancy Spec.

Lemma Qsum_split (xs : list Q) :
  Qsum xs ==
  Qsum (List.filter (fun x => Qltb 0 x) xs)
  + Qsum (List.filter (fun x => Qltb x 0) xs).
Proof.
  induction xs as [|x xs IH]; [reflexivity|].
  simpl. rewrite Qsum_cons, IH.
  destruct (Qltb 0 x) eqn:Hp, (Qltb x 0) eqn:Hn;
    rewrite ?Qsum_cons; try lra.
  - apply Qltb_true in Hp, Hn. lra.
  - apply Qltb_false in Hp, Hn. lra.
Qed.

Lemma Qsum_negatives (xs : list Q) :
  Qsum (map Qabs (List.filter (fun x => Qltb x 0) xs))
  == - Qsum (List.filter (fun x => Qltb x 0) xs).
Proof.
  induction xs as [|x xs IH]; [reflexivity|].
  simpl. destruct (Qltb x 0) eqn:Hn; [|exact IH].
  simpl. rewrite !Qsum_cons, IH. apply Qltb_true in Hn.
  rewrite Qabs_neg by lra. lra.
Qed.

Lemma Qsum_negatives_le (xs : list Q) :
  Qsum (List.filter (fun x => Qltb x 0) xs) <= 0.
Proof.
  induction xs as [|x xs IH]; [apply Qle_refl|].
  simpl. destruct (Qltb x 0) eqn:Hn; [|exact IH].
  rewrite Qsum_cons. apply Qltb_true in Hn. lra.
Qed.

Lemma len_split (xs : list Q) :
  Forall (fun x => ¬ x == 0) xs →
  len (List.filter (fun x => Qltb 0 x) xs)
  + len (List.filter (fun x => Qltb x 0) xs) == len xs.
Proof.
  induction 1 as [|x xs Hx _ IH]; [reflexivity|].
  simpl. rewrite len_cons.
  destruct (Qltb 0 x) eqn:Hp, (Qltb x 0) eqn:Hn;
    rewrite ?len_cons; try lra.
  - apply Qltb_true in Hp, Hn. lra.
  - apply Qltb_false in Hp, Hn. exfalso. apply Hx. lra.
Qed.

Lemma len_zero_nil (xs : list Q) : (length xs =? 0)%nat = true → xs = [].
Proof. destruct xs; [reflexivity | discriminate]. Qed.

Lemma len_map_pnl (trades : list Trade.t) :
  trades ≠ [] → map Trade.net_pnl trades ≠ [].
Proof. destruct trades; [congruence | discriminate]. Qed.

Lemma mean_abs_negatives (xs : list Q) :
  let ls := List.filter (fun x => Qltb x 0) xs in
  ls ≠ [] → Qabs (Qsum ls / len ls) == Qsum (map Qabs ls) / len ls.
Proof.
  intros ls Hne. pose proof (len_pos ls Hne) as Hl.
  unfold ls in *. rewrite Qsum_negatives.
  pose proof (Qsum_negatives_le xs) as Hs.
  rewrite Qabs_neg.
  - field. lra.
  - apply Qle_shift_div_r; [exact Hl | lra].
Qed.

(** The fields computed on a non-empty list, one by one. *)
Lemma calculate_expectancy_fields (trades : list Trade.t) :
  trades ≠ [] →
  let r := calculate_expectancy trades in
  let pnls := map Trade.net_pnl trades in
  let ws := positive_pnls trades in
  let ls := negative_pnls trades in
  win_rate r = len ws / len pnls * 100
  ∧ avg_win r = (if (length ws =? 0)%nat then 0 else Qsum ws / len ws)
  ∧ avg_loss r =
      (if (length ls =? 0)%nat then 0 else Qabs (Qsum ls / len ls))
  ∧ expectancy r =
      len ws / len pnls * avg_win r - len ls / len pnls * avg_loss r
  ∧ signal_strength r = py_max 0 (expectancy r)
  ∧ total_trades r = length trades.
Proof.
  intros Hne. unfold calculate_expectancy.
  destruct trades as [|t ts]; [congruence|].
  repeat split.
Qed.

Lemma expectancy_is_mean (trades : list Trade.t) :
  trades ≠ [] →
  expectancy (calculate_expectancy trades)
  == Qsum (map Trade.net_pnl trades) / len (map Trade.net_pnl trades).
Proof.
  intros Hne.
  destruct (calculate_expectancy_fields trades Hne)
    as (_ & Haw & Hal & He & _).
  rewrite He, Haw, Hal. clear He Haw Hal.
  pose proof (len_pos _ (len_map_pnl _ Hne)) as Hn.
  rewrite (Qsum_split (map Trade.net_pnl trades)).
  fold (positive_pnls trades) (negative_pnls trades).
  set (ws := positive_pnls trades). set (ls := negative_pnls trades).
  set (n := len (map Trade.net_pnl trades)) in *.
  assert (Hw : len ws / n * (if (length ws =? 0)%nat then 0
                            else Qsum ws / len ws) == Qsum ws / n).
  { destruct (length ws =? 0)%nat eqn:E.
    - apply len_zero_nil in E. rewrite E. rewrite Qsum_nil. field. lra.
    - assert (ws ≠ []) as Hw by (intros ->; discriminate).
      pose proof (len_pos ws Hw). field. lra. }
  assert (Hl : len ls / n * (if (length ls =? 0)%nat then 0
                            else Qabs (Qsum ls / len ls))
               == - Qsum ls / n).
  { destruct (length ls =? 0)%nat eqn:E.
    - apply len_zero_nil in E. rewrite E. rewrite Qsum_nil. field. lra.
    - assert (ls ≠ []) as Hl by (intros ->; discriminate).
      pose proof (len_pos ls Hl).
      unfold ls in *. unfold negative_pnls in *.
      rewrite (mean_abs_negatives _ Hl), Qsum_negatives. field. lra. }
  rewrite Hw, Hl. field. lra.
Qed.

End ExpectancyFacts.

Section ExpectancyClaims.

Import Expectancy Spec Sample.

(** C3, as amended.  On a non-empty list of trades, with [w] the share of
    trades whose net result is positive: the returned [win_rate] is [w] as a
    percentage, [avg_win] is the mean of the positive net results, [avg_loss]
    is the mean of the absolute values of the negative ones, and
    [expectancy = w * avg_win - l * avg_loss] where [l] is the share of
    trades whose net result is negative.  When no trade breaks even, [l] is
    [1 - w]; in every case the expectancy is the mean net result per
    trade. *)
Theorem calculate_expectancy_formula (trades : list Trade.t) :
  trades ≠ [] →
  let r := calculate_expectancy trades in
  let pnls := map Trade.net_pnl trades in
  let ws := positive_pnls trades in
  let ls := negative_pnls trades in
  let w := len ws / len pnls in
  let l := len ls / len pnls in
  win_rate r == 100 * w
  ∧ (ws ≠ [] → avg_win r == Qsum ws / len ws)
  ∧ (ws = [] → avg_win r == 0)
  ∧ (ls ≠ [] → avg_loss r == Qsum (map Qabs ls) / len ls)
  ∧ (ls = [] → avg_loss r == 0)
  ∧ expectancy r == w * avg_win r - l * avg_loss r
  ∧ (Forall (fun x => ¬ x == 0) pnls →
     expectancy r == w * avg_win r - (1 - w) * avg_loss r)
  ∧ expectancy r == Qsum pnls / len pnls.
Proof.
  intros Hne r pnls ws ls w l.
  destruct (calculate_expectancy_fields trades Hne)
    as (Hwr & Haw & Hal & He & _).
  fold r pnls ws ls in Hwr, Haw, Hal, He.
  pose proof (len_pos _ (len_map_pnl _ Hne)) as Hn. fold pnls in Hn.
  assert (Hexp : expectancy r == w * avg_win r - l * avg_loss r)
    by (rewrite He; reflexivity).
  repeat split.
  - rewrite Hwr. unfold w. field. lra.
  - intros Hw. rewrite Haw. destruct ws; [congruence | reflexivity].
  - intros Hw. rewrite Haw, Hw. reflexivity.
  - intros Hl. rewrite Hal.
    destruct (length ls =? 0)%nat eqn:E;
      [apply len_zero_nil in E; congruence|].
    apply (mean_abs_negatives pnls). exact Hl.
  - intros Hl. rewrite Hal, Hl. reflexivity.
  - exact Hexp.
  - intros Hnz. rewrite Hexp.
    assert (l == 1 - w) as ->; [|reflexivity].
    unfold l, w. pose proof (len_split pnls Hnz) as Hs.
    change (len ws + len ls == len pnls) in Hs.
    setoid_replace (len ls) with (len pnls - len ws) using relation Qeq
      by lra.
    field. lra.
  - apply expectancy_is_mean. exact Hne.
Qed.

Lemma calculate_expectancy_formula_witness :
  [trade_of_pnl 30; trade_of_pnl 0; trade_of_pnl (-10)] ≠ []
  ∧ expectancy (calculate_expectancy
                  [trade_of_pnl 30; trade_of_pnl 0; trade_of_pnl (-10)])
    == Qsum [30; 0; -10] / 3.
Proof.
  split; [discriminate|].
  apply (calculate_expectancy_formula
           [trade_of_pnl 30; trade_of_pnl 0; trade_of_pnl (-10)]).
  discriminate.
Defined.

(** C3 as stated fails on a list with a trade that breaks even: one win of
    10, one loss of 10 and one trade at 0 give win rate 1/3 and both averages
    10, and the expectancy computed is 0, not [1/3 * 10 - 2/3 * 10]. *)
Lemma expectancy_breakeven_counterexample :
  let trades := [trade_of_pnl 10; trade_of_pnl 0; trade_of_pnl (-10)] in
  let r := calculate_expectancy trades in
  let w := len (positive_pnls trades) / len (map Trade.net_pnl trades) in
  w == 1 # 3
  ∧ avg_win r == 10
  ∧ avg_loss r == 10
  ∧ expectancy r == 0
  ∧ ¬ expectancy r == w * avg_win r - (1 - w) * avg_loss r.
Proof.
  vm_compute. repeat split; try reflexivity. discriminate.
Qed.

(** C9.  For every list of trades the signal strength is the larger of 0
    and the expectancy; on the empty list every field of the result is 0 and
    nothing is raised. *)
Theorem signal_strength_is_clipped_expectancy :
  (∀ trades : list Trade.t,
     let r := calculate_expectancy trades in
     signal_strength r == Qmax 0 (expectancy r))
  ∧ (let r := calculate_expectancy [] in
     win_rate r = 0 ∧ avg_win r = 0 ∧ avg_loss r = 0 ∧ expectancy r = 0
     ∧ signal_strength r = 0 ∧ total_trades r = 0%nat).
Proof.
  split; [|repeat split].
  intros trades r.
  assert (Hs : signal_strength r = py_max 0 (expectancy r)).
  { unfold r, calculate_expectancy. destruct trades; reflexivity. }
  rewrite Hs. unfold py_max.
  destruct (Qltb 0 (expectancy r)) eqn:E.
  - apply Qltb_true in E. symmetry. apply Q.max_r. lra.
  - apply Qltb_false in E. symmetry. apply Q.max_l. exact E.
Qed.

End ExpectancyClaims.

(** ** Rounding *)

Section RoundingFacts.

Lemma floor_bounds (x : Q) :
  inject_Z (Qfloor x) <= x ∧ x < inject_Z (Qfloor x) + 1.
Proof.
  split; [apply Qfloor_le|].
  pose proof (Qlt_floor x) as H. rewrite inject_Z_plus in H. exact H.
Qed.

Lemma round_half_even_cases (x : Q) :
  round_half_even x = Qfloor x ∨ round_half_even x = (Qfloor x + 1)%Z.
Proof.
  unfold round_half_even. cbv zeta.
  destruct (Qltb _ _); [left; reflexivity|].
  destruct (Qltb _ _); [right; reflexivity|].
  destruct (Z.even _); [left | right]; reflexivity.
Qed.

Lemma round_half_even_nonneg (x : Q) :
  0 <= x → (0 <= round_half_even x)%Z.
Proof.
  intros Hx. pose proof (Qfloor_resp_le _ _ Hx) as Hf.
  change (Qfloor 0) with 0%Z in Hf.
  destruct (round_half_even_cases x) as [-> | ->]; lia.
Qed.

Lemma round_half_even_nonpos (x : Q) :
  x <= 0 → (round_half_even x <= 0)%Z.
Proof.
  intros Hx. pose proof (Qfloor_resp_le _ _ Hx) as Hf.
  change (Qfloor 0) with 0%Z in Hf.
  destruct (Z.eq_dec (Qfloor x) 0%Z) as [E | E].
  - unfold round_half_even. cbv zeta. rewrite E.
    pose proof (Qfloor_le x) as Hl. rewrite E in Hl.
    assert (Hr : Qltb (x - inject_Z 0) (1 # 2) = true).
    { apply Qltb_true. change (inject_Z 0) with 0 in *. lra. }
    rewrite Hr. lia.
  - destruct (round_half_even_cases x) as [-> | ->]; lia.
Qed.

Lemma round_half_even_mono (x y : Q) :
  x <= y → (round_half_even x <= round_half_even y)%Z.
Proof.
  intros Hxy. pose proof (Qfloor_resp_le _ _ Hxy) as Hf.
  destruct (Z.eq_dec (Qfloor x) (Qfloor y)) as [E | E].
  - unfold round_half_even. cbv zeta. rewrite <- E.
    destruct (Qltb (x - inject_Z (Qfloor x)) (1 # 2)) eqn:X1.
    + destruct (Qltb (y - inject_Z (Qfloor x)) (1 # 2)); [lia|].
      destruct (Qltb (1 # 2) (y - inject_Z (Qfloor x))); [lia|].
      destruct (Z.even (Qfloor x)); lia.
    + apply Qltb_false in X1.
      assert (Y1 : Qltb (y - inject_Z (Qfloor x)) (1 # 2) = false)
        by (apply Qltb_false; lra).
      rewrite Y1.
      destruct (Qltb (1 # 2) (x - inject_Z (Qfloor x))) eqn:X2.
      * apply Qltb_true in X2.
        assert (Y2 : Qltb (1 # 2) (y - inject_Z (Qfloor x)) = true)
          by (apply Qltb_true; lra).
        rewrite Y2. lia.
      * destruct (Qltb (1 # 2) (y - inject_Z (Qfloor x))),
                 (Z.even (Qfloor x)); lia.
  - destruct (round_half_even_cases x) as [-> | ->],
             (round_half_even_cases y) as [-> | ->]; lia.
Qed.

Lemma round2_of (z : Z) : inject_Z z / 100 == inject_Z z * (1 # 100).
Proof. reflexivity. Qed.

Lemma round2_nonneg (x : Q) : 0 <= x → 0 <= round2 x.
Proof.
  intros Hx. unfold round2. rewrite round2_of.
  assert (0 <= x * 100) as H by lra.
  apply round_half_even_nonneg in H. rewrite Zle_Qle in H.
  change (inject_Z 0) with 0 in H. lra.
Qed.

Lemma round2_nonpos (x : Q) : x <= 0 → round2 x <= 0.
Proof.
  intros Hx. unfold round2. rewrite round2_of.
  assert (x * 100 <= 0) as H by lra.
  apply round_half_even_nonpos in H. rewrite Zle_Qle in H.
  change (inject_Z 0) with 0 in H. lra.
Qed.

Lemma round2_mono (x y : Q) : x <= y → round2 x <= round2 y.
Proof.
  intros Hxy. unfold round2. rewrite !round2_of.
  assert (x * 100 <= y * 100) as H by lra.
  apply round_half_even_mono in H. rewrite Zle_Qle in H. lra.
Qed.

Lemma round2_zero (x : Q) : x == 0 → round2 x == 0.
Proof.
  intros Hx. apply Qle_antisym;
    [apply round2_nonpos | apply round2_nonneg]; lra.
Qed.

Lemma round_half_even_error (x : Q) :
  Qabs (inject_Z (round_half_even x) - x) <= 1 # 2.
Proof.
  destruct (floor_bounds x) as [Hlo Hhi].
  unfold round_half_even. cbv zeta.
  destruct (Qltb (x - inject_Z (Qfloor x)) (1 # 2)) eqn:E1.
  - apply Qltb_true in E1. apply Qabs_Qle_condition. split; lra.
  - apply Qltb_false in E1.
    assert (Hup : Qabs (inject_Z (Qfloor x + 1) - x) <= 1 # 2).
    { rewrite inject_Z_plus. change (inject_Z 1) with 1.
      apply Qabs_Qle_condition. split; lra. }
    destruct (Qltb (1 # 2) (x - inject_Z (Qfloor x))) eqn:E2; [exact Hup|].
    apply Qltb_false in E2.
    destruct (Z.even (Qfloor x)); [|exact Hup].
    apply Qabs_Qle_condition. split; lra.
Qed.

Lemma round2_error (x : Q) : Qabs (round2 x - x) <= 1 # 200.
Proof.
  pose proof (round_half_even_error (x * 100)) as H.
  apply Qabs_Qle_condition in H. destruct H as [H1 H2].
  unfold round2. rewrite round2_of. apply Qabs_Qle_condition. split; lra.
Qed.

End RoundingFacts.

(** ** The scan of [simulate_trade] *)

Section EngineFacts.

Import RealAlgorithmEngine Spec.

Lemma stop_hit_dec (bias : string) (sl : Q) (c : candle) :
  (if is_bullish bias then Qleb (Low c) sl else Qleb sl (High c)) = true
  ↔ stop_hit bias sl c.
Proof. unfold stop_hit. destruct (is_bullish bias); apply Qleb_true. Qed.

Lemma target_hit_dec (bias : string) (tg : Q) (c : candle) :
  (if is_bullish bias then Qleb tg (High c) else Qleb (Low c) tg) = true
  ↔ target_hit bias tg c.
Proof. unfold target_hit. destruct (is_bullish bias); apply Qleb_true. Qed.

(** One step of the scan, with the two directions folded together. *)
Lemma scan_cons (self : t) (bias : string) (sl tg : Q) (c : candle)
    (rest : list candle) :
  scan self bias sl tg (c :: rest) =
  match parse_time (Time c) with
  | None => scan self bias sl tg rest
  | Some candle_time =>
      if (force_exit_time self <=? candle_time)%Z then
        Some (Close c, Time c, Trade.FORCE_EXIT_EOD)
      else if (if is_bullish bias then Qleb (Low c) sl
               else Qleb sl (High c)) then
        Some (sl, Time c, Trade.STOP_LOSS)
      else if (if is_bullish bias then Qleb tg (High c)
               else Qleb (Low c) tg) then
        Some (tg, Time c, Trade.TARGET)
      else scan self bias sl tg rest
  end.
Proof.
  simpl. destruct (parse_time (Time c)); [|reflexivity].
  destruct (_ <=? _)%Z; [reflexivity|].
  destruct (is_bullish bias); reflexivity.
Qed.

Lemma scan_quiet_step (self : t) (bias : string) (sl tg : Q) (c : candle)
    (rest : list candle) :
  quiet self bias sl tg c →
  scan self bias sl tg (c :: rest) = scan self bias sl tg rest.
Proof.
  intros Hq. rewrite scan_cons. unfold quiet in Hq.
  destruct (parse_time (Time c)) as [ct|]; [|reflexivity].
  destruct Hq as (Ht & Hs & Hg).
  destruct (Z.leb_spec (force_exit_time self) ct) as [Hle|_]; [lia|].
  rewrite <- stop_hit_dec in Hs. rewrite <- target_hit_dec in Hg.
  destruct (if is_bullish bias then Qleb (Low c) sl else Qleb sl (High c));
    [congruence|].
  destruct (if is_bullish bias then Qleb tg (High c) else Qleb (Low c) tg);
    [congruence | reflexivity].
Qed.

Lemma scan_quiet (self : t) (bias : string) (sl tg : Q) (cs : list candle) :
  Forall (quiet self bias sl tg) cs → scan self bias sl tg cs = None.
Proof.
  induction 1 as [|c cs Hc _ IH]; [reflexivity|].
  rewrite scan_quiet_step by exact Hc. exact IH.
Qed.

(** Rows on which the scan does not stop are passed over. *)
Lemma scan_passes (self : t) (bias : string) (sl tg : Q)
    (pre cs : list candle) :
  scan self bias sl tg pre = None →
  scan self bias sl tg (pre ++ cs) = scan self bias sl tg cs.
Proof.
  induction pre as [|c pre IH]; [reflexivity|].
  rewrite <- app_comm_cons, !scan_cons.
  destruct (parse_time (Time c)); [|exact IH].
  destruct (_ <=? _)%Z; [discriminate|].
  destruct (if is_bullish bias then Qleb (Low c) sl else Qleb sl (High c));
    [discriminate|].
  destruct (if is_bullish bias then Qleb tg (High c) else Qleb (Low c) tg);
    [discriminate|].
  exact IH.
Qed.

Lemma scan_stops_on_both (self : t) (bias : string) (sl tg : Q) (c : candle)
    (rest : list candle) (candle_time : Z) :
  parse_time (Time c) = Some candle_time →
  (candle_time < force_exit_time self)%Z →
  stop_hit bias sl c →
  scan self bias sl tg (c :: rest) = Some (sl, Time c, Trade.STOP_LOSS).
Proof.
  intros Hp Ht Hs. rewrite scan_cons, Hp.
  destruct (Z.leb_spec (force_exit_time self) candle_time) as [Hle|_];
    [lia|].
  apply stop_hit_dec in Hs. rewrite Hs. reflexivity.
Qed.

(** A target exit happens on a row that did not cross the stop. *)
Lemma scan_target_not_stop (self : t) (bias : string) (sl tg : Q)
    (cs : list candle) (px : Q) (tm : string) :
  scan self bias sl tg cs = Some (px, tm, Trade.TARGET) →
  ∃ pre c post,
    cs = pre ++ c :: post
    ∧ scan self bias sl tg pre = None
    ∧ Time c = tm ∧ px = tg
    ∧ ¬ stop_hit bias sl c ∧ target_hit bias tg c.
Proof.
  induction cs as [|c cs IH]; [discriminate|].
  rewrite scan_cons.
  assert (Hrest : scan self bias sl tg cs = Some (px, tm, Trade.TARGET) →
    (match parse_time (Time c) with
     | None => True
     | Some ct => (force_exit_time self <=? ct)%Z = false
         ∧ (if is_bullish bias then Qleb (Low c) sl
            else Qleb sl (High c)) = false
         ∧ (if is_bullish bias then Qleb tg (High c)
            else Qleb (Low c) tg) = false
     end) →
    ∃ pre c0 post, c :: cs = pre ++ c0 :: post
      ∧ scan self bias sl tg pre = None ∧ Time c0 = tm ∧ px = tg
      ∧ ¬ stop_hit bias sl c0 ∧ target_hit bias tg c0).
  { intros Hs Hc. destruct (IH Hs) as (pre & c0 & post & -> & Hpre & Hrest).
    exists (c :: pre), c0, post. split; [reflexivity|]. split; [|exact Hrest].
    rewrite scan_cons. destruct (parse_time (Time c)); [|exact Hpre].
    destruct Hc as (-> & -> & ->). exact Hpre. }
  destruct (parse_time (Time c)) as [ct|] eqn:Hp; [|intros H; auto].
  destruct (force_exit_time self <=? ct)%Z eqn:Hf; [discriminate|].
  destruct (if is_bullish bias then Qleb (Low c) sl else Qleb sl (High c))
    eqn:Hs; [discriminate|].
  destruct (if is_bullish bias then Qleb tg (High c) else Qleb (Low c) tg)
    eqn:Hg; [|intros H; auto].
  intros [= <- <-]. exists [], c, cs. repeat split.
  - rewrite <- stop_hit_dec. congruence.
  - apply target_hit_dec. exact Hg.
Qed.

Lemma find_entry_idx_last (tm : string) (df : frame) (idx : nat) :
  find_entry_idx tm df = Some idx → ∃ i c, last df = Some (i, c).
Proof.
  intros H. destruct (last df) as [[i c]|] eqn:E; [eauto|].
  apply last_None in E. subst df. discriminate.
Qed.

Lemma simulate_trade_found (self : t) (e : entry) (df : frame)
    (trade_date : string) (idx : nat) (px : Q) (tm : string)
    (rs : Trade.exit_reason) :
  find_entry_idx (entry_time e) df = Some idx →
  find_exit self e idx df = Ok (px, tm, rs) →
  simulate_trade self e df trade_date
  = Ok (Some (record_of self e trade_date px tm rs)).
Proof.
  intros Hi Hx. unfold simulate_trade. rewrite Hi, Hx. reflexivity.
Qed.

Lemma simulate_trade_inv (self : t) (e : entry) (df : frame)
    (trade_date : string) (tr : Trade.t) :
  simulate_trade self e df trade_date = Ok (Some tr) →
  ∃ idx px tm rs,
    find_entry_idx (entry_time e) df = Some idx
    ∧ find_exit self e idx df = Ok (px, tm, rs)
    ∧ tr = record_of self e trade_date px tm rs.
Proof.
  unfold simulate_trade.
  destruct (find_entry_idx _ _) as [idx|] eqn:Hi; [|discriminate].
  destruct (find_exit _ _ _ _) as [[[px tm] rs]|] eqn:Hx; [|discriminate].
  intros [= <-]. exists idx, px, tm, rs.
  split; [reflexivity|]. split; [exact Hx | reflexivity].
Qed.

(** [simulate_trade] never raises: the frame in which the entry row was
    found has a last row. *)
Lemma simulate_trade_returns (self : t) (e : entry) (df : frame)
    (trade_date : string) :
  ∃ r, simulate_trade self e df trade_date = Ok r.
Proof.
  unfold simulate_trade.
  destruct (find_entry_idx _ _) as [idx|] eqn:Hi; [|eauto].
  unfold find_exit.
  destruct (scan _ _ _ _ _) as [[[px tm] rs]|]; [eauto|].
  destruct (find_entry_idx_last _ _ _ Hi) as (i & c & ->). eauto.
Qed.


Lemma label_loss (x : Q) : label x = Trade.LOSS ↔ x < 0.
Proof.
  unfold label. destruct (Qltb 0 x) eqn:P.
  - apply Qltb_true in P. split; [discriminate | intros; lra].
  - destruct (Qltb x 0) eqn:N.
    + apply Qltb_true in N. tauto.
    + apply Qltb_false in N. split; [discriminate | intros; lra].
Qed.


End EngineFacts.

(** ** Exit selection and the trade record *)

Section EngineClaims.

Import RealAlgorithmEngine Spec Sample.

(** C2.  When the scan of [simulate_trade] reaches a candle that lies before
    the forced exit time and crosses both the stop and the target (for a long
    position low <= stop and high >= target, for a short one high >= stop and
    low <= target), the trade exits on that candle at the stop price with
    reason STOP_LOSS, not TARGET; the recorded exit price is the stop price
    after exit slippage, rounded. *)
Theorem stop_loss_has_priority (self : t) (e : entry) (df : frame)
    (trade_date : string) (idx : nat) (pre post : list candle) (c : candle)
    (candle_time : Z) :
  find_entry_idx (entry_time e) df = Some idx →
  rows_after idx df = pre ++ c :: post →
  scan self (bias e) (stop_loss e) (target e) pre = None →
  parse_time (Time c) = Some candle_time →
  (candle_time < force_exit_time self)%Z →
  crosses_both (bias e) (stop_loss e) (target e) c →
  find_exit self e idx df = Ok (stop_loss e, Time c, Trade.STOP_LOSS)
  ∧ ∃ tr,
      simulate_trade self e df trade_date = Ok (Some tr)
      ∧ Trade.reason tr = Trade.STOP_LOSS
      ∧ Trade.reason tr ≠ Trade.TARGET
      ∧ Trade.exit_time tr = Time c
      ∧ Trade.exit_price tr
        = round2 (slipped_exit self (bias e) (stop_loss e)).
Proof.
  intros Hi Hrows Hpre Hp Ht [Hs _].
  assert (Hx : find_exit self e idx df
               = Ok (stop_loss e, Time c, Trade.STOP_LOSS)).
  { unfold find_exit. rewrite Hrows, (scan_passes _ _ _ _ _ _ Hpre).
    rewrite (scan_stops_on_both _ _ _ _ _ _ _ Hp Ht Hs). reflexivity. }
  split; [exact Hx|].
  eexists. split; [apply (simulate_trade_found _ _ _ _ _ _ _ _ Hi Hx)|].
  repeat split. discriminate.
Qed.

Lemma stop_loss_has_priority_witness :
  crosses_both "BULLISH" 98 104 (row "09:30:00" 101 105 97 99)
  ∧ find_exit engine long_100 1 wide_bar_day
    = Ok (98, "09:30:00", Trade.STOP_LOSS).
Proof.
  assert (Hc : crosses_both "BULLISH" 98 104 (row "09:30:00" 101 105 97 99)).
  { split; vm_compute; congruence. }
  split; [exact Hc|].
  apply (stop_loss_has_priority engine long_100 wide_bar_day "2024-01-02" 1
           [row "09:25:00" 100 (203 # 2) (199 # 2) 101]
           [row "09:35:00" 99 100 98 99]
           (row "09:30:00" 101 105 97 99) (hms 9 30 0)).
  - reflexivity.
  - reflexivity.
  - reflexivity.
  - reflexivity.
  - reflexivity.
  - exact Hc.
Defined.

(** The same on a short position. *)
Example stop_loss_has_priority_short :
  find_exit engine short_100 1 wide_bar_day
  = Ok (102, "09:30:00", Trade.STOP_LOSS).
Proof. reflexivity. Qed.

(** C7.  When every row the scan visits is passed over (none reaches the
    forced exit time, none crosses the stop or the target), the trade exits
    at the close of the last row of the frame with reason FORCE_EXIT_EOD;
    this covers a frame that ends with the entry row. *)
Theorem force_exit_at_last_close (self : t) (e : entry) (df : frame)
    (trade_date : string) (idx : nat) :
  find_entry_idx (entry_time e) df = Some idx →
  Forall (quiet self (bias e) (stop_loss e) (target e)) (rows_after idx df) →
  ∃ i last_candle,
    last df = Some (i, last_candle)
    ∧ find_exit self e idx df
      = Ok (Close last_candle, Time last_candle, Trade.FORCE_EXIT_EOD)
    ∧ ∃ tr,
        simulate_trade self e df trade_date = Ok (Some tr)
        ∧ Trade.reason tr = Trade.FORCE_EXIT_EOD
        ∧ Trade.exit_time tr = Time last_candle
        ∧ Trade.exit_price tr
          = round2 (slipped_exit self (bias e) (Close last_candle)).
Proof.
  intros Hi Hq.
  destruct (find_entry_idx_last _ _ _ Hi) as (i & lc & Hl).
  exists i, lc. split; [exact Hl|].
  assert (Hx : find_exit self e idx df
               = Ok (Close lc, Time lc, Trade.FORCE_EXIT_EOD)).
  { unfold find_exit. rewrite (scan_quiet _ _ _ _ _ Hq), Hl. reflexivity. }
  split; [exact Hx|].
  eexists. split; [apply (simulate_trade_found _ _ _ _ _ _ _ _ Hi Hx)|].
  repeat split.
Qed.

Lemma force_exit_at_last_close_witness :
  rows_after 1 short_day = []
  ∧ ∃ i last_candle,
      last short_day = Some (i, last_candle)
      ∧ find_exit engine long_100 1 short_day
        = Ok (Close last_candle, Time last_candle, Trade.FORCE_EXIT_EOD)
      ∧ ∃ tr,
          simulate_trade engine long_100 short_day "2024-01-02"
          = Ok (Some tr)
          ∧ Trade.reason tr = Trade.FORCE_EXIT_EOD
          ∧ Trade.exit_time tr = Time last_candle
          ∧ Trade.exit_price tr
            = round2 (slipped_exit engine (bias long_100)
                        (Close last_candle)).
Proof.
  split; [reflexivity|].
  apply (force_exit_at_last_close engine long_100 short_day "2024-01-02" 1).
  - reflexivity.
  - apply Forall_nil_2.
Defined.




End EngineClaims.

(** ** Entry selection *)

Section EntryFacts.

Import RealAlgorithmEngine Spec Sample.

Lemma enterable_dec (self : t) (c : candle) :
  enterable self c
  ↔ match parse_time (Time c) with
     | Some candle_time => (entry_start self <=? candle_time)%Z = true
     | None => False
     end.
Proof.
  unfold enterable. destruct (parse_time (Time c)) as [ct|].
  - rewrite Z.leb_le. split.
    + intros (ct' & [= <-] & H). exact H.
    + intros H. exists ct. split; [reflexivity | exact H].
  - split; [intros (ct' & H & _); discriminate | tauto].
Qed.

Lemma find_entry_candle_cons (self : t) (i : nat) (c : candle) (df : frame) :
  (enterable self c → find_entry_candle self ((i, c) :: df) = Some c)
  ∧ (¬ enterable self c →
     find_entry_candle self ((i, c) :: df) = find_entry_candle self df).
Proof.
  rewrite enterable_dec. simpl.
  destruct (parse_time (Time c)) as [ct|]; [|tauto].
  destruct (entry_start self <=? ct)%Z; split; intros H;
    try reflexivity; try discriminate; exfalso; apply H; reflexivity.
Qed.

Lemma enterable_or_not (self : t) (c : candle) :
  enterable self c ∨ ¬ enterable self c.
Proof.
  rewrite enterable_dec. destruct (parse_time (Time c)) as [ct|]; [|tauto].
  destruct (entry_start self <=? ct)%Z; [left | right]; congruence.
Qed.


Lemma find_entry_candle_some (self : t) (df : frame) (c : candle) :
  find_entry_candle self df = Some c ↔ first_enterable self df c.
Proof.
  unfold first_enterable. induction df as [|[i c0] df IH].
  - split; [discriminate|]. intros (pre & post & H & _).
    destruct pre; discriminate.
  - destruct (find_entry_candle_cons self i c0 df) as [Hy Hn].
    destruct (enterable_or_not self c0) as [He | He].
    + rewrite (Hy He). split.
      * intros [= <-]. exists [], (map snd df).
        repeat split; [constructor | exact He].
      * intros (pre & post & Heq & Hpre & _). destruct pre as [|c1 pre].
        -- injection Heq as -> _. reflexivity.
        -- injection Heq as <- _. apply Forall_cons in Hpre. tauto.
    + rewrite (Hn He), IH. split.
      * intros (pre & post & Heq & Hpre & Hc).
        exists (c0 :: pre), post. simpl. rewrite Heq.
        repeat split; [constructor; assumption | exact Hc].
      * intros (pre & post & Heq & Hpre & Hc). destruct pre as [|c1 pre].
        -- injection Heq as -> _. contradiction.
        -- injection Heq as <- Heq. apply Forall_cons in Hpre.
           exists pre, post. tauto.
Qed.


Lemma first_enterable_in (self : t) (df : frame) (c : candle) :
  first_enterable self df c → c ∈ map snd df.
Proof.
  intros (pre & post & -> & _). apply elem_of_app. right. left.
Qed.





Lemma py_int_inv (x : Q) (z : Z) :
  py_int x = Ok z → z = trunc x ∧ Qabs x < overflow_at.
Proof.
  unfold py_int. destruct (Qleb overflow_at (Qabs x)) eqn:E; [discriminate|].
  intros [= <-]. split; [reflexivity | apply Qleb_false, E].
Qed.

Lemma py_int_overflow (x : Q) :
  overflow_at <= x → py_int x = Raise OverflowError.
Proof.
  intros H. unfold py_int.
  assert (E : Qleb overflow_at (Qabs x) = true).
  { apply Qleb_true. apply Qle_trans with x; [exact H | apply Qle_Qabs]. }
  rewrite E. reflexivity.
Qed.


End EntryFacts.

Section EntryClaims.

Import RealAlgorithmEngine Spec Sample.




End EntryClaims.

(** ** Dictionaries and the store *)

Section StoreFacts.

Import StockAllocator Sizing.

Lemma is_num_lookup (d : pydict) (k : string) :
  is_num d k → d !! k = Some (VNum (num d k)).
Proof. intros [q H]. unfold num. rewrite H. reflexivity. Qed.

Lemma num_insert_eq (d : pydict) (k : string) (q : Q) :
  num (<[k := VNum q]> d) k = q.
Proof. unfold num. rewrite lookup_insert_eq. reflexivity. Qed.


Lemma is_num_insert_eq (d : pydict) (k : string) (q : Q) :
  is_num (<[k := VNum q]> d) k.
Proof. exists q. apply lookup_insert_eq. Qed.

Lemma is_num_insert (d : pydict) (k k' : string) (q : Q) :
  is_num d k' → is_num (<[k := VNum q]> d) k'.
Proof.
  intros [q' H]. destruct (decide (k = k')) as [<- | Hne].
  - apply is_num_insert_eq.
  - exists q'. rewrite lookup_insert_ne by exact Hne. exact H.
Qed.


Lemma candidate_insert (d : pydict) (k : string) (q : Q) :
  k ≠ "bias" → candidate d → candidate (<[k := VNum q]> d).
Proof.
  intros Hk (Hc & He & Hb). repeat split; try (apply is_num_insert; assumption).
  rewrite lookup_insert_ne by exact Hk. exact Hb.
Qed.

Lemma has_nums_insert (ks : list string) (d : pydict) (k : string) (q : Q) :
  k ≠ "bias" → has_nums ks d → has_nums ks (<[k := VNum q]> d).
Proof.
  intros Hk [Hc Hn]. split; [apply candidate_insert; assumption|].
  eapply Forall_impl; [exact Hn|]. intros k'. apply is_num_insert.
Qed.

Lemma has_nums_insert_new (ks : list string) (d : pydict) (k : string)
    (q : Q) :
  k ≠ "bias" → has_nums ks d → has_nums (k :: ks) (<[k := VNum q]> d).
Proof.
  intros Hk H. destruct (has_nums_insert ks d k q Hk H) as [Hc Hn].
  split; [exact Hc|]. constructor; [apply is_num_insert_eq | exact Hn].
Qed.


(** Evaluation of the primitive computations. *)
Lemma bind_ok {A B : Type} (c : M A) (k : A → M B) (h h1 : heap) (a : A) :
  c h = Ok (a, h1) → bind c k h = k a h1.
Proof. intros H. unfold bind. rewrite H. reflexivity. Qed.

Lemma getitem_ok (l : loc) (k : string) (h : heap) (d : pydict) (v : value) :
  h !! l = Some d → d !! k = Some v → getitem l k h = Ok (v, h).
Proof. intros Hl Hk. unfold getitem. rewrite Hl, Hk. reflexivity. Qed.

Lemma num_item_ok (l : loc) (k : string) (h : heap) (d : pydict) :
  h !! l = Some d → is_num d k → num_item l k h = Ok (num d k, h).
Proof.
  intros Hl Hk. unfold num_item.
  rewrite (bind_ok _ _ _ _ _ (getitem_ok _ _ _ _ _ Hl (is_num_lookup _ _ Hk))).
  reflexivity.
Qed.

Lemma setitem_ok (l : loc) (k : string) (v : value) (h : heap) (d : pydict) :
  h !! l = Some d → setitem l k v h = Ok (tt, <[l := <[k := v]> d]> h).
Proof. intros Hl. unfold setitem. rewrite Hl. reflexivity. Qed.

Lemma py_div_ok (x y : Q) (h : heap) :
  ¬ y == 0 → py_div x y h = Ok (x / y, h).
Proof.
  intros Hy. unfold py_div. apply Qeq_bool_false in Hy. rewrite Hy.
  reflexivity.
Qed.

(** A second write to the same dictionary. *)
Lemma setitem_again (l : loc) (k : string) (v : value) (h : heap)
    (d : pydict) :
  setitem l k v (<[l := d]> h) = Ok (tt, <[l := <[k := v]> d]> h).
Proof.
  rewrite (setitem_ok l k v _ d) by apply lookup_insert_eq.
  rewrite insert_insert_eq. reflexivity.
Qed.

Lemma num_item_again (l : loc) (k : string) (h : heap) (d : pydict) :
  is_num d k → num_item l k (<[l := d]> h) = Ok (num d k, <[l := d]> h).
Proof. intros Hk. apply num_item_ok; [apply lookup_insert_eq | exact Hk]. Qed.

(** Loops. *)
Lemma apply_all_cons (g : pydict → pydict) (l : loc) (ls : list loc)
    (h : heap) :
  apply_all g (l :: ls) h = apply_all g ls (alter g l h).
Proof. reflexivity. Qed.

Lemma for_each_acts (body : loc → M unit) (g : pydict → pydict)
    (P : pydict → Prop) :
  (∀ l h d, h !! l = Some d → P d → body l h = Ok (tt, <[l := g d]> h)) →
  (∀ d, P d → P (g d)) →
  ∀ (ls : list loc) (h : heap),
    (∀ l, l ∈ ls → ∃ d, h !! l = Some d ∧ P d) →
    for_each ls body h = Ok (tt, apply_all g ls h).
Proof.
  intros Hbody Hstable. induction ls as [|a ls IH]; intros h Hall.
  - reflexivity.
  - destruct (Hall a) as (d & Hd & HP); [left|].
    simpl for_each. rewrite (bind_ok _ _ _ _ _ (Hbody a h d Hd HP)).
    rewrite apply_all_cons, (alter_alt_Some g h a d Hd). apply IH.
    intros l Hl. destruct (decide (a = l)) as [<- | Hne].
    + exists (g d). rewrite lookup_insert_eq. auto.
    + rewrite lookup_insert_ne by exact Hne. apply Hall. right. exact Hl.
Qed.

Lemma occurrences_cons_eq (l : loc) (ls : list loc) :
  occurrences l (l :: ls) = S (occurrences l ls).
Proof. unfold occurrences. apply count_occ_cons_eq. reflexivity. Qed.

Lemma occurrences_cons_ne (a l : loc) (ls : list loc) :
  a ≠ l → occurrences l (a :: ls) = occurrences l ls.
Proof. intros H. unfold occurrences. apply count_occ_cons_neq. exact H. Qed.

Lemma occurrences_pos (l : loc) (ls : list loc) :
  l ∈ ls ↔ (0 < occurrences l ls)%nat.
Proof.
  unfold occurrences. rewrite list_elem_of_In.
  rewrite (count_occ_In Pos.eq_dec). reflexivity.
Qed.

Lemma lookup_apply_all (g : pydict → pydict) (ls : list loc) (h : heap)
    (l : loc) :
  apply_all g ls h !! l = Nat.iter (occurrences l ls) g <$> h !! l.
Proof.
  revert h. induction ls as [|a ls IH]; intros h.
  - simpl. destruct (h !! l); reflexivity.
  - rewrite apply_all_cons, IH. destruct (decide (a = l)) as [-> | Hne].
    + rewrite lookup_alter_eq, occurrences_cons_eq.
      destruct (h !! l); [|reflexivity]. simpl fmap.
      rewrite <- Nat.iter_succ_r. reflexivity.
    + rewrite lookup_alter_ne by exact Hne.
      rewrite occurrences_cons_ne by exact Hne. reflexivity.
Qed.




Lemma iter_keeps (g : pydict → pydict) (P : pydict → Prop) (n : nat)
    (d : pydict) :
  (∀ d, P d → P (g d)) → P d → P (Nat.iter n g d).
Proof. intros Hg Hd. induction n; simpl; auto. Qed.

Lemma apply_all_are (g : pydict → pydict) (P P' : pydict → Prop)
    (ls : list loc) (h : heap) :
  (∀ d, P d → P' (g d)) → (∀ d, P' d → P' (g d)) →
  all_are P ls h → all_are P' ls (apply_all g ls h).
Proof.
  intros Hnew Hkeep Hall l Hl. destruct (Hall l Hl) as (d & Hd & HP).
  rewrite lookup_apply_all, Hd. eexists. split; [reflexivity|].
  apply occurrences_pos in Hl.
  destruct (occurrences l ls) as [|n]; [lia|].
  rewrite Nat.iter_succ_r. apply iter_keeps; auto.
Qed.

Lemma sum_from_acts (f : loc → M Q) (v : pydict → Q) (P : pydict → Prop) :
  (∀ l h d, h !! l = Some d → P d → f l h = Ok (v d, h)) →
  ∀ (ls : list loc) (h : heap) (acc : Q),
    all_are P ls h →
    sum_from acc f ls h
    = Ok (fold_left Qplus
            (map (fun l => match h !! l with Some d => v d | None => 0 end)
               ls) acc, h).
Proof.
  intros Hf. induction ls as [|a ls IH]; intros h acc Hall.
  - reflexivity.
  - destruct (Hall a) as (d & Hd & HP); [left|].
    simpl sum_from. rewrite (bind_ok _ _ _ _ _ (Hf a h d Hd HP)).
    rewrite IH by (intros l Hl; apply Hall; right; exact Hl).
    simpl. rewrite Hd. reflexivity.
Qed.


End StoreFacts.

(** ** The loop bodies of [allocate_capital] *)

Section StepFacts.

Import StockAllocator Sizing.

Lemma Qltb_nonzero (x : Q) : Qltb 0 x = true → ¬ x == 0.
Proof. intros H E. apply Qltb_true in H. lra. Qed.

Lemma count_nonzero (n : nat) : n ≠ 0%nat → ¬ inject_Z (Z.of_nat n) == 0.
Proof.
  intros Hn E. unfold Qeq in E. simpl in E. lia.
Qed.


Lemma step2_acts (self : t) (l : loc) (h : heap) (d : pydict) :
  h !! l = Some d → is_num d "weight" →
  step2 (max_basket_loss self) l h = Ok (tt, <[l := capped self d]> h).
Proof.
  intros Hl Hw. unfold step2.
  rewrite (bind_ok _ _ _ _ _ (num_item_ok _ _ _ _ Hl Hw)).
  apply setitem_ok, Hl.
Qed.

Lemma step3_acts (self : t) (l : loc) (h : heap) (d : pydict) :
  h !! l = Some d → candidate d →
  step3 self l h = Ok (tt, <[l := levelled self d]> h).
Proof.
  intros Hl (_ & He & [v Hb]). unfold step3.
  rewrite (bind_ok _ _ _ _ _
             (getitem_ok _ _ _ _ _ Hl (is_num_lookup _ _ He))).
  rewrite (bind_ok _ _ _ _ _ (getitem_ok _ _ _ _ _ Hl Hb)).
  unfold levelled, long. rewrite Hb. cbv zeta.
  assert (Hn : as_num (VNum (num d "entry_price")) h
               = Ok (num d "entry_price", h)) by reflexivity.
  destruct (eq_str v "BULLISH").
  - rewrite (bind_ok _ _ _ _ _ Hn).
    rewrite (bind_ok _ _ _ _ _ (setitem_ok _ _ _ _ _ Hl)).
    rewrite (bind_ok _ _ _ _ _
               (num_item_again _ "stop_loss" _ _ (is_num_insert_eq _ _ _))).
    rewrite num_insert_eq. apply setitem_again.
  - rewrite (bind_ok _ _ _ _ _ Hn).
    rewrite (bind_ok _ _ _ _ _ (setitem_ok _ _ _ _ _ Hl)).
    rewrite (bind_ok _ _ _ _ _
               (num_item_again _ "stop_loss" _ _ (is_num_insert_eq _ _ _))).
    rewrite num_insert_eq. apply setitem_again.
Qed.







End StepFacts.

(** ** [allocate_capital] as a whole *)

Section AllocatorRuns.

Import StockAllocator Sizing.



Lemma levelled_keeps (self : t) (ks : list string) (d : pydict) :
  has_nums ks d → has_nums ("target" :: "stop_loss" :: ks) (levelled self d).
Proof.
  intros H. unfold levelled. cbv zeta.
  destruct (long d); do 2 (apply has_nums_insert_new; [done|]); exact H.
Qed.






Lemma candidate_has_nums (d : pydict) : candidate d ↔ has_nums [] d.
Proof.
  unfold has_nums. split; [|tauto]. intros H. split; [exact H | constructor].
Qed.











(** On an empty list nothing is read or written. *)
Lemma allocate_capital_empty (self : t) (h : heap) :
  allocate_capital self [] h = Ok ([], h).
Proof. reflexivity. Qed.


End AllocatorRuns.

(** ** The fields written by [allocate_capital] *)

Section FieldFacts.

Import StockAllocator Sizing.





















End FieldFacts.

(** ** Sums over the list *)

Section SumFacts.

Import StockAllocator Sizing.






End SumFacts.

(** ** Weights *)

Section WeightClaims.

Import StockAllocator Sizing.




Lemma all_are_nil (P : pydict → Prop) (h : heap) : all_are P [] h.
Proof. intros l Hl. apply elem_of_nil in Hl. contradiction. Qed.

Lemma all_are_cons (P : pydict → Prop) (l : loc) (ls : list loc) (h : heap)
    (d : pydict) :
  h !! l = Some d → P d → all_are P ls h → all_are P (l :: ls) h.
Proof.
  intros Hd HP Hls l' Hl'. apply elem_of_cons in Hl'.
  destruct Hl' as [-> | Hl']; [eauto | apply Hls, Hl'].
Qed.

Lemma candidate_dict_ok (sym : string) (p c : Q) (b : string) :
  candidate (Sample.candidate_dict sym p c b).
Proof.
  unfold Sample.candidate_dict. repeat split.
  - exists c. by simplify_map_eq.
  - exists p. by simplify_map_eq.
  - exists (VStr b). by simplify_map_eq.
Qed.




End WeightClaims.

(** ** Stop and target levels *)

Section LevelClaims.

Import Sizing.







End LevelClaims.

(** ** Capital feasibility *)

Section CapitalClaims.

Import StockAllocator Sizing.











End CapitalClaims.

(** ** In-place update *)

Section FrameClaims.

Import StockAllocator Sizing.





(** In the sample basket the third stock costs more than the cap per stock:
    it is not returned, yet its dictionary has been filled in. *)
Example dropped_stock_is_filled_in :
  allocated Sample.allocator Sample.basket_refs Sample.basket
  = [1; 2]%positive
  ∧ field (final_store Sample.allocator Sample.basket_refs Sample.basket) 3
      "quantity" == 0
  ∧ field (final_store Sample.allocator Sample.basket_refs Sample.basket) 3
      "stop_loss" == 19600
  ∧ field (final_store Sample.allocator Sample.basket_refs Sample.basket) 3
      "weight" == 1 # 6.
Proof. vm_compute. repeat split. Qed.

(** A dictionary listed twice is one object: step 6 rescales it twice. *)
Example alias_is_rescaled_twice :
  field (final_store Sample.allocator [1; 1; 2; 2]%positive Sample.crowded) 1
    "quantity" == 104
  ∧ field (final_store Sample.allocator Sample.crowded_refs Sample.crowded) 1
      "quantity" == 125.
Proof. vm_compute. repeat split. Qed.

End FrameClaims.

(** * Further properties *)

(** ** The exit of a simulated trade *)

Section ExitFacts.

Import RealAlgorithmEngine Spec.

Lemma scan_decides_step (self : t) (bias : string) (sl tg : Q) (c : candle)
    (rest : list candle) (x : Q * string * Trade.exit_reason) :
  decides self bias sl tg c x → scan self bias sl tg (c :: rest) = Some x.
Proof.
  intros (ct & Hp & H). rewrite scan_cons, Hp.
  destruct H as [(Hf & ->) | [(Hf & Hs & ->) | (Hf & Hs & Hg & ->)]].
  - apply Z.leb_le in Hf. rewrite Hf. reflexivity.
  - apply Z.leb_gt in Hf. rewrite Hf.
    apply stop_hit_dec in Hs. rewrite Hs. reflexivity.
  - apply Z.leb_gt in Hf. rewrite Hf.
    rewrite <- stop_hit_dec in Hs. apply not_true_is_false in Hs.
    rewrite Hs. apply target_hit_dec in Hg. rewrite Hg. reflexivity.
Qed.

Lemma quiet_or_decides (self : t) (bias : string) (sl tg : Q) (c : candle) :
  quiet self bias sl tg c ∨ ∃ x, decides self bias sl tg c x.
Proof.
  unfold quiet, decides. destruct (parse_time (Time c)) as [ct|]; [|tauto].
  destruct (Z.le_gt_cases (force_exit_time self) ct) as [Hf | Hf].
  - right. eexists. exists ct. split; [reflexivity|]. left. eauto.
  - assert (Hs : stop_hit bias sl c ∨ ¬ stop_hit bias sl c).
    { rewrite <- stop_hit_dec. destruct (if is_bullish bias then _ else _);
        [left | right]; congruence. }
    assert (Hg : target_hit bias tg c ∨ ¬ target_hit bias tg c).
    { rewrite <- target_hit_dec. destruct (if is_bullish bias then _ else _);
        [left | right]; congruence. }
    destruct Hs as [Hs | Hs].
    + right. eexists. exists ct. split; [reflexivity|]. right. left. eauto.
    + destruct Hg as [Hg | Hg].
      * right. eexists. exists ct. split; [reflexivity|]. right. right.
        eauto.
      * left. auto.
Qed.

Lemma scan_none_quiet (self : t) (bias : string) (sl tg : Q)
    (cs : list candle) :
  scan self bias sl tg cs = None ↔ Forall (quiet self bias sl tg) cs.
Proof.
  split; [|apply scan_quiet].
  induction cs as [|c cs IH]; [constructor|]. intros H.
  destruct (quiet_or_decides self bias sl tg c) as [Hq | [x Hx]].
  - rewrite (scan_quiet_step _ _ _ _ _ _ Hq) in H. constructor; auto.
  - rewrite (scan_decides_step _ _ _ _ _ cs _ Hx) in H. discriminate.
Qed.

Lemma scan_some_first (self : t) (bias : string) (sl tg : Q)
    (cs : list candle) (x : Q * string * Trade.exit_reason) :
  scan self bias sl tg cs = Some x
  ↔ ∃ pre c post,
      cs = pre ++ c :: post
      ∧ Forall (quiet self bias sl tg) pre
      ∧ decides self bias sl tg c x.
Proof.
  split.
  - induction cs as [|c cs IH]; [discriminate|]. intros H.
    destruct (quiet_or_decides self bias sl tg c) as [Hq | [y Hy]].
    + rewrite (scan_quiet_step _ _ _ _ _ _ Hq) in H.
      destruct (IH H) as (pre & c0 & post & -> & Hpre & Hc).
      exists (c :: pre), c0, post. split; [reflexivity|].
      split; [constructor; assumption | exact Hc].
    + rewrite (scan_decides_step _ _ _ _ _ cs _ Hy) in H.
      injection H as <-. exists [], c, cs. split; [reflexivity|].
      split; [constructor | exact Hy].
  - intros (pre & c & post & -> & Hpre & Hc).
    rewrite (scan_passes _ _ _ _ _ _ (scan_quiet _ _ _ _ _ Hpre)).
    apply scan_decides_step, Hc.
Qed.

(** The exit of a trade is decided by the first row after the entry row
    that is not passed over; if there is none, it is the close of the last
    row of the frame.  Nothing else can come out. *)
Theorem find_exit_characterised (self : t) (e : entry) (idx : nat)
    (df : frame) (x : Q * string * Trade.exit_reason) :
  find_exit self e idx df = Ok x
  ↔ (∃ pre c post,
       rows_after idx df = pre ++ c :: post
       ∧ Forall (quiet self (bias e) (stop_loss e) (target e)) pre
       ∧ decides self (bias e) (stop_loss e) (target e) c x)
    ∨ (Forall (quiet self (bias e) (stop_loss e) (target e))
         (rows_after idx df)
       ∧ ∃ i last_candle,
           last df = Some (i, last_candle)
           ∧ x = (Close last_candle, Time last_candle,
                  Trade.FORCE_EXIT_EOD)).
Proof.
  unfold find_exit.
  destruct (scan self (bias e) (stop_loss e) (target e) (rows_after idx df))
    as [y|] eqn:Hs.
  - split.
    + intros [= <-]. left. apply scan_some_first, Hs.
    + intros [H | [Hq _]].
      * apply scan_some_first in H. congruence.
      * apply scan_quiet in Hq. congruence.
  - split.
    + intros H. right. split; [apply scan_none_quiet, Hs|].
      destruct (last df) as [[i lc]|]; [|discriminate].
      injection H as <-. eauto.
    + intros [H | [_ (i & lc & -> & ->)]]; [|reflexivity].
      apply scan_some_first in H. congruence.
Qed.

End ExitFacts.

(** ** From entry to trade *)

Section EntryToTrade.

Import RealAlgorithmEngine Spec.

Lemma find_entry_idx_none (tm : string) (df : frame) :
  find_entry_idx tm df = None ↔ ∀ i c, (i, c) ∈ df → Time c ≠ tm.
Proof.
  induction df as [|[i c] df IH].
  - split; [|reflexivity]. intros _ i c H. apply elem_of_nil in H.
    contradiction.
  - simpl. destruct (String.eqb_spec (Time c) tm) as [E | E].
    + split; [discriminate|]. intros H. exfalso.
      apply (H i c); [left | exact E].
    + rewrite IH. split.
      * intros H j c' Hj. apply elem_of_cons in Hj.
        destruct Hj as [[= -> ->] | Hj]; [exact E | apply (H j c' Hj)].
      * intros H j c' Hj. apply (H j c'). right. exact Hj.
Qed.

(** [simulate_trade] never raises, and it gives no result exactly when no
    row of the frame carries the entry time. *)
Theorem simulate_trade_fails_only_without_entry_row (self : t) (e : entry)
    (df : frame) (trade_date : string) :
  (∃ r, simulate_trade self e df trade_date = Ok r)
  ∧ (simulate_trade self e df trade_date = Ok None
     ↔ ∀ i c, (i, c) ∈ df → Time c ≠ entry_time e).
Proof.
  split; [apply simulate_trade_returns|].
  rewrite <- find_entry_idx_none. unfold simulate_trade.
  destruct (find_entry_idx (entry_time e) df) as [idx|] eqn:Hi.
  - split; [|discriminate].
    destruct (find_exit self e idx df) as [[[px tm] rs]|]; discriminate.
  - split; reflexivity.
Qed.

Lemma calculate_entry_record (self : t) (sym : string) (df : frame)
    (bias : string) (e : entry) :
  calculate_entry self sym df bias = Ok (Some e) →
  ∃ c,
    find_entry_candle self df = Some c
    ∧ ¬ slipped_entry self bias (Open c) == 0
    ∧ quantity e
      = trunc (capital_per_trade self / slipped_entry self bias (Open c))
    ∧ quantity e ≠ 0%Z
    ∧ symbol e = sym ∧ entry_time e = Time c
    ∧ RealAlgorithmEngine.bias e = bias.
Proof.
  unfold calculate_entry.
  destruct (find_entry_candle self df) as [c|]; [|discriminate].
  destruct (Qeq_bool _ 0) eqn:Hz; [discriminate|].
  destruct (py_int _) as [q|] eqn:Hi; [|discriminate].
  apply py_int_inv in Hi. destruct Hi as [-> _].
  destruct (Z.eqb_spec
              (trunc (capital_per_trade self
                      / slipped_entry self bias (Open c))) 0)
    as [|Hq]; [discriminate|].
  intros [= <-]. exists c. apply Qeq_bool_false in Hz. repeat split; auto.
Qed.

(** The entry that [calculate_entry] returns for a frame is always located
    again by [simulate_trade] in that frame: the two calls in a row produce a
    trade record, for the symbol, bias and quantity of the entry. *)
Theorem entry_is_located (self : t) (sym : string) (df : frame)
    (bias : string) (e : entry) (trade_date : string) :
  calculate_entry self sym df bias = Ok (Some e) →
  ∃ tr,
    simulate_trade self e df trade_date = Ok (Some tr)
    ∧ Trade.date tr = trade_date
    ∧ Trade.symbol tr = sym
    ∧ Trade.bias tr = bias
    ∧ Trade.entry_time tr = entry_time e
    ∧ Trade.quantity tr = quantity e
    ∧ Trade.quantity tr ≠ 0%Z.
Proof.
  intros Hce.
  destruct (calculate_entry_record _ _ _ _ _ Hce)
    as (c & Hc & _ & _ & Hq & Hsym & Htm & Hb).
  destruct (find_entry_idx (entry_time e) df) as [idx|] eqn:Hi.
  - destruct (find_exit self e idx df) as [[[px tm] rs]|] eqn:Hx.
    + exists (record_of self e trade_date px tm rs).
      split; [apply (simulate_trade_found _ _ _ _ _ _ _ _ Hi Hx)|].
      unfold record_of. cbn. rewrite Hsym, Hb. repeat split. exact Hq.
    + exfalso. destruct (simulate_trade_returns self e df trade_date)
        as [r Hr].
      unfold simulate_trade in Hr. rewrite Hi, Hx in Hr. discriminate.
  - exfalso. apply find_entry_candle_some, (first_enterable_in self) in Hc.
    apply list_elem_of_fmap in Hc. destruct Hc as ([i c'] & -> & Hin).
    rewrite find_entry_idx_none in Hi. apply (Hi i c' Hin). symmetry.
    exact Htm.
Qed.

Lemma entry_is_located_witness :
  ∃ tr,
    simulate_trade Sample.engine
      {| symbol := "X"; entry_time := "09:20:00";
         entry_price := round2 (1001 # 10); quantity := 99;
         bias := "BULLISH"; stop_loss := round2 (98098 # 1000);
         target := round2 (104104 # 1000);
         invested_amount := round2 (99099 # 10) |}
      Sample.wide_bar_day "2024-01-02" = Ok (Some tr)
    ∧ Trade.quantity tr = 99%Z.
Proof.
  destruct (entry_is_located Sample.engine "X" Sample.wide_bar_day "BULLISH"
              {| symbol := "X"; entry_time := "09:20:00";
                 entry_price := round2 (1001 # 10); quantity := 99;
                 bias := "BULLISH"; stop_loss := round2 (98098 # 1000);
                 target := round2 (104104 # 1000);
                 invested_amount := round2 (99099 # 10) |} "2024-01-02")
    as (tr & Htr & _ & _ & _ & _ & Hq & _).
  - vm_compute. reflexivity.
  - exists tr. split; [exact Htr | exact Hq].
Defined.



(** Two opens that make [calculate_entry] raise.  When the first candle at
    or after the entry start time has a slippage-adjusted open of zero (an
    open of 0, which the data validation lets through), the division raises
    [ZeroDivisionError].  When a BULLISH entry meets a positive open so
    small that capital per trade over the adjusted open is at least twice
    the range of the doubles, the quotient is infinite and [int] raises
    [OverflowError]. *)
Theorem calculate_entry_fails_on_degenerate_open (self : t) (sym : string)
    (df : frame) (bias : string) (c : candle) :
  first_enterable self df c →
  let price := slipped_entry self bias (Open c) in
  (price == 0 → calculate_entry self sym df bias = Raise ZeroDivisionError)
  ∧ (bias = "BULLISH" → 0 < Open c → 0 <= slippage_percent self →
     2 * overflow_at * price <= capital_per_trade self →
     calculate_entry self sym df bias = Raise OverflowError).
Proof.
  intros Hc price. apply find_entry_candle_some in Hc.
  unfold calculate_entry. rewrite Hc. fold price. split.
  - intros Hz. apply Qeq_bool_iff in Hz. rewrite Hz. reflexivity.
  - intros -> Ho Hs Hcap.
    assert (Hp : 0 < price).
    { unfold price, slipped_entry. simpl is_bullish. cbv iota.
      apply Qmult_lt_0_compat; [exact Ho | pct; lra]. }
    assert (Hz : Qeq_bool price 0 = false) by (apply Qeq_bool_false; lra).
    rewrite Hz. rewrite py_int_overflow; [reflexivity|].
    apply Qle_shift_div_l; [exact Hp|].
    assert (0 <= overflow_at * price)
      by (apply Qmult_le_0_compat; [discriminate | lra]).
    lra.
Qed.

Lemma calculate_entry_fails_on_degenerate_open_witness :
  calculate_entry Sample.engine "X" Sample.free_day "BULLISH"
  = Raise ZeroDivisionError
  ∧ calculate_entry Sample.engine "X" Sample.dust_day "BULLISH"
    = Raise OverflowError.
Proof.
  split.
  - apply (calculate_entry_fails_on_degenerate_open Sample.engine "X"
             Sample.free_day "BULLISH" (Sample.row "09:20:00" 0 1 0 1)).
    + apply find_entry_candle_some. reflexivity.
    + vm_compute. reflexivity.
  - apply (calculate_entry_fails_on_degenerate_open Sample.engine "X"
             Sample.dust_day "BULLISH"
             (Sample.row "09:20:00" (1 / inject_Z (2 ^ 1020)) 1 0 1)).
    + apply find_entry_candle_some. reflexivity.
    + reflexivity.
    + vm_compute. reflexivity.
    + vm_compute. discriminate.
    + vm_compute. discriminate.
Defined.

End EntryToTrade.

(** ** Profit and loss of a trade *)

Section PnlFacts.

Import RealAlgorithmEngine Spec.

(** The amounts in a trade record are the exact amounts within half a cent;
    the recorded net result and the difference of the recorded gross result
    and cost may therefore differ, by at most a cent and a half. *)
Theorem recorded_amounts_are_close (self : t) (e : entry) (df : frame)
    (trade_date : string) (tr : Trade.t) :
  simulate_trade self e df trade_date = Ok (Some tr) →
  ∃ idx px tm rs,
    find_entry_idx (entry_time e) df = Some idx
    ∧ find_exit self e idx df = Ok (px, tm, rs)
    ∧ let exit_price := slipped_exit self (bias e) px in
      Qabs (Trade.exit_price tr - exit_price) <= 1 # 200
      ∧ Qabs (Trade.gross_pnl tr - gross_of e exit_price) <= 1 # 200
      ∧ Qabs (Trade.transaction_cost tr - cost_of self e) <= 1 # 200
      ∧ Qabs (Trade.net_pnl tr
              - (gross_of e exit_price - cost_of self e)) <= 1 # 200
      ∧ Qabs (Trade.net_pnl tr
              - (Trade.gross_pnl tr - Trade.transaction_cost tr))
        <= 3 # 200.
Proof.
  intros H. destruct (simulate_trade_inv _ _ _ _ _ H)
    as (idx & px & tm & rs & Hi & Hx & ->).
  exists idx, px, tm, rs. split; [exact Hi|]. split; [exact Hx|].
  cbv zeta. unfold record_of.
  cbn [Trade.exit_price Trade.gross_pnl Trade.transaction_cost
       Trade.net_pnl].
  unfold net_of.
  set (g := gross_of e (slipped_exit self (bias e) px)).
  set (c := cost_of self e).
  pose proof (round2_error (slipped_exit self (bias e) px)) as H1.
  pose proof (round2_error g) as H2. pose proof (round2_error c) as H3.
  pose proof (round2_error (g - c)) as H4.
  split; [exact H1|]. split; [exact H2|]. split; [exact H3|].
  split; [exact H4|].
  apply Qabs_Qle_condition in H2, H3, H4.
  apply Qabs_Qle_condition. split; lra.
Qed.

Lemma recorded_amounts_are_close_witness :
  ∃ tr,
    simulate_trade Sample.engine Sample.long_100 Sample.wide_bar_day
      "2024-01-02" = Ok (Some tr)
    ∧ Qabs (Trade.net_pnl tr
            - (Trade.gross_pnl tr - Trade.transaction_cost tr)) <= 3 # 200.
Proof.
  destruct (simulate_trade Sample.engine Sample.long_100 Sample.wide_bar_day
              "2024-01-02") as [[tr|]|] eqn:E;
    [|discriminate E|discriminate E].
  exists tr. split; [reflexivity|].
  destruct (recorded_amounts_are_close _ _ _ _ _ E)
    as (idx & px & tm & rs & _ & _ & _ & _ & _ & _ & H).
  exact H.
Defined.

(** A trade closed by its stop is a loss: for a long position whose stop is
    below the entry price, and for a short position whose stop is above it
    (non-negative stop, slippage, cost rate and invested amount, positive
    quantity), the record has reason STOP_LOSS only with outcome LOSS. *)
Theorem stop_loss_exit_is_a_loss (self : t) (e : entry) (df : frame)
    (trade_date : string) (tr : Trade.t) :
  simulate_trade self e df trade_date = Ok (Some tr) →
  Trade.reason tr = Trade.STOP_LOSS →
  0 <= slippage_percent self →
  0 <= transaction_cost_percent self →
  0 <= invested_amount e →
  (0 < quantity e)%Z →
  0 <= stop_loss e →
  (if is_bullish (bias e) then stop_loss e < entry_price e
   else entry_price e < stop_loss e) →
  Trade.profit_or_loss tr = Trade.LOSS
  ∧ Trade.net_pnl tr <= 0
  ∧ Trade.gross_pnl tr <= 0.
Proof.
  intros H Hr Hs Htc Hinv Hq Hsl Hside.
  destruct (simulate_trade_inv _ _ _ _ _ H)
    as (idx & px & tm & rs & Hi & Hx & ->).
  unfold record_of in *.
  cbn [Trade.reason Trade.profit_or_loss Trade.net_pnl Trade.gross_pnl]
    in Hr |- *.
  subst rs.
  assert (Hpx : px = stop_loss e).
  { apply find_exit_characterised in Hx.
    destruct Hx as [(pre & c & post & _ & _ & (ct & _ & Hd))
                   | (_ & i & lc & _ & [=])].
    destruct Hd as [(_ & [=]) | [(_ & _ & [= -> _]) | (_ & _ & _ & [=])]].
    reflexivity. }
  subst px.
  assert (Hqq : 0 < inject_Z (quantity e)).
  { change 0 with (inject_Z 0). rewrite <- Zlt_Qlt. exact Hq. }
  assert (Hc : 0 <= cost_of self e).
  { unfold cost_of. pct.
    repeat apply Qmult_le_0_compat; lra. }
  assert (Hss : 0 <= stop_loss e * (slippage_percent self * (1 # 100)))
    by (apply Qmult_le_0_compat; lra).
  assert (Hg : gross_of e (slipped_exit self (bias e) (stop_loss e)) < 0).
  { unfold gross_of, slipped_exit. destruct (is_bullish (bias e)).
    - assert (E : (stop_loss e * (1 - slippage_percent self / 100)
                   - entry_price e) * inject_Z (quantity e)
                  == - ((entry_price e - stop_loss e
                         + stop_loss e * (slippage_percent self * (1 # 100)))
                        * inject_Z (quantity e))) by (pct; ring).
      rewrite E.
      assert (0 < (entry_price e - stop_loss e
                   + stop_loss e * (slippage_percent self * (1 # 100)))
                  * inject_Z (quantity e))
        by (apply Qmult_lt_0_compat; lra).
      lra.
    - assert (E : (entry_price e
                   - stop_loss e * (1 + slippage_percent self / 100))
                  * inject_Z (quantity e)
                  == - ((stop_loss e - entry_price e
                         + stop_loss e * (slippage_percent self * (1 # 100)))
                        * inject_Z (quantity e))) by (pct; ring).
      rewrite E.
      assert (0 < (stop_loss e - entry_price e
                   + stop_loss e * (slippage_percent self * (1 # 100)))
                  * inject_Z (quantity e))
        by (apply Qmult_lt_0_compat; lra).
      lra. }
  split; [apply label_loss; unfold net_of; lra|].
  split; apply round2_nonpos; unfold net_of; lra.
Qed.

Lemma stop_loss_exit_is_a_loss_witness :
  ∃ tr,
    simulate_trade Sample.engine Sample.long_100 Sample.wide_bar_day
      "2024-01-02" = Ok (Some tr)
    ∧ Trade.profit_or_loss tr = Trade.LOSS.
Proof.
  destruct (simulate_trade Sample.engine Sample.long_100 Sample.wide_bar_day
              "2024-01-02") as [[tr|]|] eqn:E;
    [|discriminate E|discriminate E].
  exists tr. split; [reflexivity|].
  apply (stop_loss_exit_is_a_loss _ _ _ _ _ E).
  - injection E as <-. reflexivity.
  - vm_compute. congruence.
  - vm_compute. congruence.
  - vm_compute. congruence.
  - reflexivity.
  - vm_compute. congruence.
  - vm_compute. reflexivity.
Defined.

End PnlFacts.

(** ** Bounds on an allocated position *)

Section PositionFacts.

Import StockAllocator Sizing.









End PositionFacts.

(** ** Validation of an allocation *)

Section ValidationFacts.

Import StockAllocator Sizing.





End ValidationFacts.

(** ** Allocation followed by validation *)

Section AllocationValidated.

Import StockAllocator Sizing.

Lemma risk_per_share (self : t) (d : pydict) :
  0 <= num d "entry_price" → 0 <= stop_loss_percent self →
  Qabs (num d "entry_price" - stop_of self d)
  == num d "entry_price" * (stop_loss_percent self * (1 # 100)).
Proof.
  intros Hp Hs.
  pose proof (Qmult_le_0_compat _ _ Hp Hs) as Hps.
  unfold stop_of. destruct (long d).
  - rewrite Qabs_pos; pct; [ring | lra].
  - rewrite Qabs_neg; pct; [ring | lra].
Qed.






End AllocationValidated.

(** ** The loss budget shared out by the weights *)

Section BudgetFacts.

Import StockAllocator Sizing.







End BudgetFacts.

(** ** Ranges of the expectancy figures *)

Section ExpectancyRanges.

Import Expectancy Spec.

Lemma Qsum_positives_ge (xs : list Q) :
  0 <= Qsum (List.filter (fun x => Qltb 0 x) xs).
Proof.
  induction xs as [|x xs IH]; [apply Qle_refl|].
  simpl. destruct (Qltb 0 x) eqn:Hp; [|exact IH].
  rewrite Qsum_cons. apply Qltb_true in Hp. lra.
Qed.

Lemma filter_signs_length (xs : list Q) :
  (length (List.filter (fun x => Qltb 0 x) xs)
   + length (List.filter (fun x => Qltb x 0) xs) ≤ length xs)%nat.
Proof.
  induction xs as [|x xs IH]; [reflexivity|].
  simpl. destruct (Qltb 0 x) eqn:Hp, (Qltb x 0) eqn:Hn; simpl; try lia.
  apply Qltb_true in Hp, Hn. lra.
Qed.

Lemma len_le (xs ys : list Q) :
  (length xs ≤ length ys)%nat → len xs <= len ys.
Proof. intros H. unfold len. rewrite <- Zle_Qle. lia. Qed.

Lemma share_bounds (a n v : Q) :
  0 <= a → a <= n → 0 < n → 0 <= v → 0 <= a / n * v ∧ a / n * v <= v.
Proof.
  intros Ha Han Hn Hv.
  assert (H0 : 0 <= a / n) by (apply Qle_shift_div_l; lra).
  assert (H1 : a / n <= 1) by (apply Qle_shift_div_r; lra).
  split; [apply Qmult_le_0_compat; assumption|].
  apply Qle_trans with (1 * v);
    [apply Qmult_le_compat_r; assumption | lra].
Qed.

Lemma calculate_expectancy_counts (trades : list Trade.t) :
  trades ≠ [] →
  wins (calculate_expectancy trades) = Some (length (positive_pnls trades))
  ∧ losses (calculate_expectancy trades)
    = Some (length (negative_pnls trades)).
Proof.
  intros Hne. unfold calculate_expectancy.
  destruct trades as [|t ts]; [congruence|]. split; reflexivity.
Qed.

(** The figures returned by [calculate_expectancy] stay in range for every
    list of trades: the win rate is a percentage, both averages are
    non-negative, the expectancy lies between [-avg_loss] and [avg_win],
    the signal strength between 0 and [avg_win], wins and losses together
    are no more than the trades counted, and without a winning trade the
    signal strength is 0. *)
Theorem expectancy_report_ranges (trades : list Trade.t) :
  let r := calculate_expectancy trades in
  (0 <= win_rate r ∧ win_rate r <= 100)
  ∧ 0 <= avg_win r ∧ 0 <= avg_loss r
  ∧ (- avg_loss r <= expectancy r ∧ expectancy r <= avg_win r)
  ∧ (0 <= signal_strength r ∧ signal_strength r <= avg_win r)
  ∧ (∀ w l, wins r = Some w → losses r = Some l →
       (w + l ≤ total_trades r)%nat)
  ∧ (positive_pnls trades = [] → signal_strength r == 0).
Proof.
  assert (Hcase : trades = [] ∨ trades ≠ [])
    by (destruct trades; [left; reflexivity | right; discriminate]).
  destruct Hcase as [-> | Hne].
  { cbn. repeat split; try apply Qle_refl; try discriminate. }
  cbv zeta. set (r := calculate_expectancy trades).
  destruct (calculate_expectancy_counts trades Hne) as (Hwins & Hlosses).
  fold r in Hwins, Hlosses.
  destruct (calculate_expectancy_fields trades Hne)
    as (Hwr & Haw & Hal & He & Hs & Htot).
  fold r in Hwr, Haw, Hal, He, Hs, Htot.
  set (pnls := map Trade.net_pnl trades) in *.
  set (ws := positive_pnls trades) in *.
  set (ls := negative_pnls trades) in *.
  pose proof (len_pos pnls (len_map_pnl _ Hne)) as Hn.
  assert (Hlen : (length ws + length ls ≤ length pnls)%nat)
    by apply (filter_signs_length pnls).
  assert (Hwn : len ws <= len pnls) by (apply len_le; lia).
  assert (Hln : len ls <= len pnls) by (apply len_le; lia).
  pose proof (len_nonneg ws) as Hw0. pose proof (len_nonneg ls) as Hl0.
  assert (Haw0 : 0 <= avg_win r).
  { rewrite Haw. destruct (length ws =? 0)%nat eqn:E; [apply Qle_refl|].
    assert (ws ≠ []) by (intros E'; rewrite E' in E; discriminate).
    apply Qle_shift_div_l; [apply len_pos; assumption|].
    assert (0 <= Qsum ws) by apply (Qsum_positives_ge pnls). lra. }
  assert (Hal0 : 0 <= avg_loss r).
  { rewrite Hal. destruct (length ls =? 0)%nat; [apply Qle_refl|].
    apply Qabs_nonneg. }
  destruct (share_bounds (len ws) (len pnls) (avg_win r) Hw0 Hwn Hn Haw0)
    as [Hw1 Hw2].
  destruct (share_bounds (len ls) (len pnls) (avg_loss r) Hl0 Hln Hn Hal0)
    as [Hl1 Hl2].
  assert (Hrate : 0 <= len ws / len pnls ∧ len ws / len pnls <= 1).
  { split; [apply Qle_shift_div_l; lra | apply Qle_shift_div_r; lra]. }
  assert (Hsig : signal_strength r == Qmax 0 (expectancy r)).
  { rewrite Hs. unfold py_max.
    destruct (Qltb 0 (expectancy r)) eqn:E.
    - apply Qltb_true in E. rewrite Q.max_r by lra. reflexivity.
    - apply Qltb_false in E. rewrite Q.max_l by lra. reflexivity. }
  split; [rewrite Hwr; lra|].
  split; [exact Haw0|]. split; [exact Hal0|].
  split; [rewrite He; lra|].
  split.
  { rewrite Hsig. split; [apply Q.le_max_l|].
    apply Q.max_lub; [exact Haw0 | rewrite He; lra]. }
  split.
  { intros w l Hw Hl. rewrite Htot. rewrite Hwins in Hw. rewrite Hlosses in Hl.
    injection Hw as <-. injection Hl as <-.
    rewrite <- (length_map Trade.net_pnl trades). exact Hlen. }
  intros Hnone.
  assert (Hzero : avg_win r == 0)
    by (rewrite Haw, Hnone; reflexivity).
  assert (Hup : signal_strength r <= avg_win r).
  { rewrite Hsig. apply Q.max_lub; [exact Haw0 | rewrite He; lra]. }
  assert (Hlow : 0 <= signal_strength r)
    by (rewrite Hsig; apply Q.le_max_l).
  lra.
Qed.

End ExpectancyRanges.

(** ** Missing and mistyped keys *)

Section ErrorFacts.

Import StockAllocator Sizing.

Lemma bind_raise {A B : Type} (c : M A) (k : A → M B) (h : heap) (e : exn) :
  c h = Raise e → bind c k h = Raise e.
Proof. intros H. unfold bind. rewrite H. reflexivity. Qed.

Lemma sum_from_fails (f : loc → M Q) (v : pydict → Q) (P : pydict → Prop)
    (e : exn) :
  (∀ l h d, h !! l = Some d → P d → f l h = Ok (v d, h)) →
  ∀ (pre : list loc) (l : loc) (post : list loc) (h : heap) (acc : Q),
    all_are P pre h → f l h = Raise e →
    sum_from acc f (pre ++ l :: post) h = Raise e.
Proof.
  intros Hf. induction pre as [|a pre IH]; intros l post h acc Hall Hl.
  - simpl. apply bind_raise, Hl.
  - destruct (Hall a) as (d & Hd & HP); [left|].
    simpl app. simpl sum_from. rewrite (bind_ok _ _ _ _ _ (Hf a h d Hd HP)).
    apply IH; [|exact Hl]. intros l' Hl'. apply Hall. right. exact Hl'.
Qed.

Lemma for_each_fails (body : loc → M unit) (g : pydict → pydict)
    (P : pydict → Prop) (e : exn) :
  (∀ l h d, h !! l = Some d → P d → body l h = Ok (tt, <[l := g d]> h)) →
  (∀ d, P d → P (g d)) →
  ∀ (pre : list loc) (l : loc) (post : list loc) (h : heap),
    all_are P pre h → body l (apply_all g pre h) = Raise e →
    for_each (pre ++ l :: post) body h = Raise e.
Proof.
  intros Hbody Hstable.
  induction pre as [|a pre IH]; intros l post h Hall Hl.
  - simpl. apply bind_raise, Hl.
  - destruct (Hall a) as (d & Hd & HP); [left|].
    simpl app. simpl for_each.
    rewrite (bind_ok _ _ _ _ _ (Hbody a h d Hd HP)).
    rewrite apply_all_cons, (alter_alt_Some g h a d Hd) in Hl.
    apply IH; [|exact Hl].
    intros l' Hl'. destruct (decide (a = l')) as [<- | Hne].
    + exists (g d). rewrite lookup_insert_eq. auto.
    + rewrite lookup_insert_ne by exact Hne. apply Hall. right. exact Hl'.
Qed.

(** A loop over any list keeps what its body keeps, at every reference. *)
Lemma apply_all_lookup_keeps (g : pydict → pydict) (P : pydict → Prop)
    (ls : list loc) (h : heap) (l : loc) (d : pydict) :
  (∀ d, P d → P (g d)) → h !! l = Some d → P d →
  ∃ d', apply_all g ls h !! l = Some d' ∧ P d'.
Proof.
  intros Hg Hd HP. rewrite lookup_apply_all, Hd. eexists.
  split; [reflexivity|]. apply iter_keeps; assumption.
Qed.

Lemma apply_all_keeps (g : pydict → pydict) (P : pydict → Prop)
    (ls ls' : list loc) (h : heap) :
  (∀ d, P d → P (g d)) → all_are P ls h → all_are P ls (apply_all g ls' h).
Proof.
  intros Hg Hall l Hl. destruct (Hall l Hl) as (d & Hd & HP).
  apply (apply_all_lookup_keeps g P ls' h l d Hg Hd HP).
Qed.

Lemma step1_reads_confidence (total_confidence : Q) (n : nat) (l : loc)
    (h : heap) (d : pydict) :
  n ≠ 0%nat → h !! l = Some d → is_num d "confidence" →
  step1 total_confidence n l h
  = Ok (tt, <[l := weighted total_confidence n d]> h).
Proof.
  intros Hn Hl Hc. unfold step1.
  assert (Hw : (if Qltb 0 total_confidence
                then c <- num_item l "confidence" ;;
                     py_div c total_confidence
                else py_div 1 (inject_Z (Z.of_nat n))) h
               = Ok (weight_of total_confidence n d, h)).
  { unfold weight_of. destruct (Qltb 0 total_confidence) eqn:E.
    - rewrite (bind_ok _ _ _ _ _ (num_item_ok _ _ _ _ Hl Hc)).
      apply py_div_ok, Qltb_nonzero, E.
    - apply py_div_ok, count_nonzero, Hn. }
  rewrite (bind_ok _ _ _ _ _ Hw). apply setitem_ok, Hl.
Qed.

Lemma num_item_missing (l : loc) (k : string) (h : heap) (d : pydict) :
  h !! l = Some d → d !! k = None → num_item l k h = Raise (KeyError k).
Proof.
  intros Hl Hk. unfold num_item. apply bind_raise. unfold getitem.
  rewrite Hl, Hk. reflexivity.
Qed.

Lemma num_item_mistyped (l : loc) (k : string) (h : heap) (d : pydict)
    (v : value) :
  h !! l = Some d → d !! k = Some v → (∀ q, v ≠ VNum q) →
  num_item l k h = Raise TypeError.
Proof.
  intros Hl Hk Hv. unfold num_item.
  rewrite (bind_ok _ _ _ _ _ (getitem_ok _ _ _ _ _ Hl Hk)).
  destruct v as [q| |]; [destruct (Hv q eq_refl) | reflexivity..].
Qed.

Lemma getitem_missing (l : loc) (k : string) (h : heap) (d : pydict) :
  h !! l = Some d → d !! k = None → getitem l k h = Raise (KeyError k).
Proof. intros Hl Hk. unfold getitem. rewrite Hl, Hk. reflexivity. Qed.

Lemma step3_missing_price (self : t) (l : loc) (h : heap) (d : pydict) :
  h !! l = Some d → d !! "entry_price" = None →
  step3 self l h = Raise (KeyError "entry_price").
Proof.
  intros Hl Hk. unfold step3. apply bind_raise.
  apply (getitem_missing _ _ _ _ Hl Hk).
Qed.

Lemma step3_missing_bias (self : t) (l : loc) (h : heap) (d : pydict) :
  h !! l = Some d → is_Some (d !! "entry_price") → d !! "bias" = None →
  step3 self l h = Raise (KeyError "bias").
Proof.
  intros Hl [v He] Hk. unfold step3.
  rewrite (bind_ok _ _ _ _ _ (getitem_ok _ _ _ _ _ Hl He)).
  apply bind_raise. apply (getitem_missing _ _ _ _ Hl Hk).
Qed.

Lemma step3_mistyped_price (self : t) (l : loc) (h : heap) (d : pydict)
    (v : value) :
  h !! l = Some d → d !! "entry_price" = Some v → (∀ q, v ≠ VNum q) →
  is_Some (d !! "bias") → step3 self l h = Raise TypeError.
Proof.
  intros Hl He Hv [b Hb]. unfold step3.
  rewrite (bind_ok _ _ _ _ _ (getitem_ok _ _ _ _ _ Hl He)).
  rewrite (bind_ok _ _ _ _ _ (getitem_ok _ _ _ _ _ Hl Hb)).
  assert (Hn : as_num v h = Raise TypeError)
    by (destruct v as [q| |]; [destruct (Hv q eq_refl) | reflexivity..]).
  destruct (eq_str b "BULLISH"); apply bind_raise, Hn.
Qed.

Lemma candidate_levelled (self : t) (d : pydict) :
  candidate d → candidate (levelled self d).
Proof.
  intros H. apply candidate_has_nums in H.
  apply (levelled_keeps self) in H. apply H.
Qed.

(** A stock without a number under [confidence] stops the call in the sum
    of step 1: the call raises [KeyError('confidence')] when the key is
    missing and [TypeError] when its value is not a number, for the first
    such stock of the list, whatever the other keys hold. *)
Theorem allocate_capital_needs_confidence (self : t) (pre : list loc)
    (l : loc) (post : list loc) (h : heap) (d : pydict) :
  all_are (fun d => is_num d "confidence") pre h → h !! l = Some d →
  (d !! "confidence" = None →
   allocate_capital self (pre ++ l :: post) h
   = Raise (KeyError "confidence"))
  ∧ (∀ v, d !! "confidence" = Some v → (∀ q, v ≠ VNum q) →
     allocate_capital self (pre ++ l :: post) h = Raise TypeError).
Proof.
  intros Hpre Hl.
  assert (Hrun : ∀ e, num_item l "confidence" h = Raise e →
            allocate_capital self (pre ++ l :: post) h = Raise e).
  { intros e He. unfold allocate_capital.
    replace (length (pre ++ l :: post) =? 0)%nat with false
      by (destruct pre; reflexivity).
    apply bind_raise. unfold sum_of.
    apply (sum_from_fails (fun s => num_item s "confidence")
             (fun d => num d "confidence")
             (fun d => is_num d "confidence") e
             (fun l h d Hl Hd => num_item_ok l _ h d Hl Hd)
             pre l post h 0 Hpre He). }
  split.
  - intros Hk. apply Hrun, (num_item_missing _ _ _ _ Hl Hk).
  - intros v Hk Hv. apply Hrun, (num_item_mistyped _ _ _ _ _ Hl Hk Hv).
Qed.

Lemma allocate_capital_needs_confidence_witness :
  allocate_capital Sample.allocator Sample.basket_refs
    (Sample.basket_without "confidence")
  = Raise (KeyError "confidence")
  ∧ allocate_capital Sample.allocator Sample.basket_refs
      Sample.basket_with_text
    = Raise TypeError.
Proof.
  split.
  - apply (allocate_capital_needs_confidence Sample.allocator [1%positive]
             2%positive [3%positive] (Sample.basket_without "confidence")
             (delete "confidence"
                (Sample.candidate_dict "B" 250 60 "BEARISH"))).
    + eapply all_are_cons; [reflexivity | | apply all_are_nil].
      apply candidate_dict_ok.
    + reflexivity.
    + vm_compute. reflexivity.
  - apply (allocate_capital_needs_confidence Sample.allocator [1%positive]
             2%positive [3%positive] Sample.basket_with_text
             (<["confidence" := VStr "high"]>
                (Sample.candidate_dict "B" 250 60 "BEARISH"))
             ltac:(eapply all_are_cons;
                   [reflexivity | apply candidate_dict_ok
                   | apply all_are_nil])
             eq_refl) with (v := VStr "high").
    + vm_compute. reflexivity.
    + intros q. discriminate.
Defined.

(** With a number under every [confidence], a stock without a usable
    [entry_price] or without [bias] stops the call in step 3, after steps 1
    and 2 have run over the whole list.  The statements of steps 1 and 2
    run to completion from the initial store and leave every listed
    dictionary, the incomplete one included, with its [weight] and
    [loss_cap]; the loop of step 3, started from that store, then raises at
    the first incomplete stock, and so does the call: [KeyError] for
    [entry_price] when that key is missing, [KeyError] for [bias] when the
    entry price is there and the bias is missing, and [TypeError] when both
    are there and the entry price is not a number. *)
Theorem allocate_capital_needs_price_and_bias (self : t) (pre : list loc)
    (l : loc) (post : list loc) (h : heap) (d : pydict) :
  all_are (fun d => is_num d "confidence") (pre ++ l :: post) h →
  all_are candidate pre h → h !! l = Some d →
  let stocks := pre ++ l :: post in
  let S := total_of (fun d => num d "confidence") stocks h in
  let h2 := apply_all (capped self) stocks
              (apply_all (weighted S (length stocks)) stocks h) in
  (total_confidence <-
     sum_of (fun stock => num_item stock "confidence") stocks ;;
   for_each stocks (step1 total_confidence (length stocks)) ;;
   for_each stocks (step2 (max_basket_loss self))) h
  = Ok (tt, h2)
  ∧ all_are (fun d => is_num d "weight" ∧ is_num d "loss_cap") stocks h2
  ∧ ∀ e,
      (d !! "entry_price" = None ∧ e = KeyError "entry_price")
      ∨ (is_Some (d !! "entry_price") ∧ d !! "bias" = None
         ∧ e = KeyError "bias")
      ∨ ((∃ v, d !! "entry_price" = Some v ∧ ∀ q, v ≠ VNum q)
         ∧ is_Some (d !! "bias") ∧ e = TypeError) →
      for_each stocks (step3 self) h2 = Raise e
      ∧ allocate_capital self stocks h = Raise e.
Proof.
  intros Hall Hpre Hl stocks S h2.
  set (g1 := weighted S (length stocks)).
  set (h1 := apply_all g1 stocks h).
  assert (Hn : length stocks ≠ 0%nat)
    by (unfold stocks; destruct pre; discriminate).
  assert (Hsum : sum_of (fun stock => num_item stock "confidence") stocks h
                 = Ok (S, h)).
  { unfold sum_of.
    rewrite (sum_from_acts (fun s => num_item s "confidence")
               (fun d => num d "confidence") (fun d => is_num d "confidence")
               (fun l h d Hl Hd => num_item_ok l _ h d Hl Hd) stocks h 0
               Hall).
    reflexivity. }
  assert (Hrun1 : for_each stocks (step1 S (length stocks)) h = Ok (tt, h1)).
  { apply (for_each_acts _ g1 (fun d => is_num d "confidence")
             (fun l h d Hl Hd => step1_reads_confidence S _ l h d Hn Hl Hd)
             (fun d Hd => is_num_insert d "weight" "confidence" _ Hd)
             stocks h Hall). }
  assert (H1 : all_are (fun d => is_num d "weight") stocks h1).
  { apply (apply_all_are g1 (fun d => is_num d "confidence"));
      [| |exact Hall].
    - intros d0 _. apply is_num_insert_eq.
    - intros d0 Hd0. apply is_num_insert, Hd0. }
  assert (Hrun2 : for_each stocks (step2 (max_basket_loss self)) h1
                  = Ok (tt, h2)).
  { apply (for_each_acts _ (capped self) (fun d => is_num d "weight")
             (fun l h d Hl Hd => step2_acts self l h d Hl Hd)
             (fun d Hd => is_num_insert d "loss_cap" "weight" _ Hd)
             stocks h1 H1). }
  assert (H2 : all_are (fun d => is_num d "weight" ∧ is_num d "loss_cap")
                 stocks h2).
  { apply (apply_all_are (capped self) (fun d => is_num d "weight"));
      [| |exact H1].
    - intros d0 Hd0. split; [apply is_num_insert, Hd0|].
      apply is_num_insert_eq.
    - intros d0 [Hw Hc]. split; apply is_num_insert; assumption. }
  split.
  { rewrite (bind_ok _ _ _ _ _ Hsum), (bind_ok _ _ _ _ _ Hrun1).
    exact Hrun2. }
  split; [exact H2|].
  assert (Hpre2 : all_are candidate pre h2).
  { unfold h2. apply apply_all_keeps; [|apply apply_all_keeps; [|exact Hpre]].
    - intros d0 Hd0. apply candidate_insert; [done | exact Hd0].
    - intros d0 Hd0. apply candidate_insert; [done | exact Hd0]. }
  set (same := fun d0 : pydict =>
                 d0 !! "entry_price" = d !! "entry_price"
                 ∧ d0 !! "bias" = d !! "bias").
  assert (Hins : ∀ k v d0, k ≠ "entry_price" → k ≠ "bias" →
                   same d0 → same (<[k := v]> d0)).
  { intros k v d0 Hk1 Hk2 [E1 E2]. unfold same.
    rewrite !lookup_insert_ne by congruence. auto. }
  assert (Hat : ∃ d', apply_all (levelled self) pre h2 !! l = Some d'
                      ∧ same d').
  { destruct (apply_all_lookup_keeps g1 same stocks h l d)
      as (d1 & Hd1 & HP1);
      [intros d0; apply Hins; done | exact Hl | split; reflexivity |].
    destruct (apply_all_lookup_keeps (capped self) same stocks h1 l d1)
      as (d2 & Hd2 & HP2);
      [intros d0; apply Hins; done | exact Hd1 | exact HP1 |].
    apply (apply_all_lookup_keeps (levelled self) same pre h2 l d2);
      [|exact Hd2 | exact HP2].
    intros d0 Hd0. unfold levelled. cbv zeta.
    destruct (long d0); do 2 (apply Hins; [done | done |]); exact Hd0. }
  destruct Hat as (d' & Hd' & Ee & Eb).
  intros e He.
  assert (Hstop : step3 self l (apply_all (levelled self) pre h2) = Raise e).
  { destruct He as [(Hk & ->) | [(Hk & Hb & ->) | ((v & Hk & Hv) & Hb & ->)]].
    - apply (step3_missing_price self _ _ d' Hd'). congruence.
    - apply (step3_missing_bias self _ _ d' Hd'); congruence.
    - apply (step3_mistyped_price self _ _ d' v Hd'); congruence. }
  assert (Hloop : for_each stocks (step3 self) h2 = Raise e).
  { apply (for_each_fails (step3 self) (levelled self) candidate e
             (step3_acts self) (candidate_levelled self)
             pre l post h2 Hpre2 Hstop). }
  split; [exact Hloop|].
  unfold allocate_capital.
  replace (length stocks =? 0)%nat with false
    by (unfold stocks; destruct pre; reflexivity).
  rewrite (bind_ok _ _ _ _ _ Hsum), (bind_ok _ _ _ _ _ Hrun1).
  cbv zeta. rewrite (bind_ok _ _ _ _ _ Hrun2).
  apply bind_raise, Hloop.
Qed.

Lemma allocate_capital_needs_price_and_bias_witness :
  allocate_capital Sample.allocator Sample.basket_refs
    (Sample.basket_without "entry_price")
  = Raise (KeyError "entry_price")
  ∧ (∃ d2,
       apply_all (capped Sample.allocator) Sample.basket_refs
         (apply_all (weighted 180 3) Sample.basket_refs
            (Sample.basket_without "entry_price")) !! 2%positive = Some d2
       ∧ is_num d2 "weight" ∧ is_num d2 "loss_cap")
  ∧ allocate_capital Sample.allocator Sample.basket_refs
      (Sample.basket_without "bias")
    = Raise (KeyError "bias").
Proof.
  assert (Hnum : ∀ k, k ≠ "confidence" →
            all_are (fun d => is_num d "confidence") Sample.basket_refs
              (Sample.basket_without k)).
  { intros k Hk.
    eapply all_are_cons; [reflexivity | apply candidate_dict_ok |].
    eapply all_are_cons; [reflexivity | |].
    { exists 60. rewrite lookup_delete_ne by congruence. reflexivity. }
    eapply all_are_cons; [reflexivity | apply candidate_dict_ok |].
    apply all_are_nil. }
  assert (Hpre : ∀ k, all_are candidate [1%positive]
                        (Sample.basket_without k)).
  { intros k. eapply all_are_cons; [reflexivity | | apply all_are_nil].
    apply candidate_dict_ok. }
  destruct (allocate_capital_needs_price_and_bias Sample.allocator
              [1%positive] 2%positive [3%positive]
              (Sample.basket_without "entry_price")
              (delete "entry_price"
                 (Sample.candidate_dict "B" 250 60 "BEARISH"))
              (Hnum "entry_price" ltac:(discriminate))
              (Hpre "entry_price") eq_refl) as (_ & Hw & Hp).
  destruct (allocate_capital_needs_price_and_bias Sample.allocator
              [1%positive] 2%positive [3%positive]
              (Sample.basket_without "bias")
              (delete "bias" (Sample.candidate_dict "B" 250 60 "BEARISH"))
              (Hnum "bias" ltac:(discriminate)) (Hpre "bias") eq_refl)
    as (_ & _ & Hb).
  split.
  { destruct (Hp (KeyError "entry_price")) as [_ H]; [|exact H].
    left. split; [vm_compute|]; reflexivity. }
  split.
  { apply (Hw 2%positive). right. left. }
  destruct (Hb (KeyError "bias")) as [_ H]; [|exact H].
  right. left. split; [exists (VNum 250); vm_compute; reflexivity|].
  split; [vm_compute|]; reflexivity.
Defined.

End ErrorFacts.

(** ** A second call *)

Section SecondCall.

Import StockAllocator Sizing.






End SecondCall.

(** ** Suggestions on their way to the allocator *)

Section SuggestionFacts.

Import AIEngine Sizing Spec.

Lemma eq_str_true (v : value) (lit : string) :
  eq_str v lit = true → v = VStr lit.
Proof.
  destruct v as [q|s|o]; try discriminate. simpl. intros H.
  apply String.eqb_eq in H. congruence.
Qed.

Lemma has_key_some (s : pydict) (k : string) :
  has_key s k = true → is_Some (s !! k).
Proof. unfold has_key. destruct (s !! k); [eauto | discriminate]. Qed.

Lemma validate_true (s : pydict) :
  _validate_suggestion s = Ok true → well_formed s.
Proof.
  unfold _validate_suggestion, required_fields. cbn [forallb].
  destruct (has_key s "symbol") eqn:K1; [|discriminate].
  destruct (has_key s "confidence") eqn:K2; [|discriminate].
  destruct (has_key s "bias") eqn:K3; [|discriminate].
  destruct (has_key s "reason") eqn:K4; [|discriminate].
  cbn [andb negb]. unfold item.
  destruct (s !! "confidence") as [[c| |]|] eqn:Hc; try discriminate.
  destruct (Qleb 0 c) eqn:H0; [|discriminate].
  destruct (Qleb c 100) eqn:H1; [|discriminate].
  cbn [andb negb].
  destruct (s !! "bias") as [b|] eqn:Hb; [|discriminate].
  destruct (eq_str b "BULLISH") eqn:E1.
  - intros _. apply eq_str_true in E1. subst b.
    repeat split; eauto using has_key_some.
    exists c. unfold Qleb in *. rewrite Qle_bool_iff in H0, H1. auto.
  - destruct (eq_str b "BEARISH") eqn:E2; [|discriminate].
    intros _. apply eq_str_true in E2. subst b.
    repeat split; eauto using has_key_some.
    exists c. unfold Qleb in *. rewrite Qle_bool_iff in H0, H1. auto.
Qed.

Lemma validate_never_key_error (s : pydict) (k : string) :
  _validate_suggestion s ≠ Raise (KeyError k).
Proof.
  unfold _validate_suggestion, required_fields. cbn [forallb].
  destruct (has_key s "symbol") eqn:K1; [|discriminate].
  destruct (has_key s "confidence") eqn:K2; [|discriminate].
  destruct (has_key s "bias") eqn:K3; [|discriminate].
  destruct (has_key s "reason") eqn:K4; [|discriminate].
  cbn [andb negb]. unfold item, has_key in *.
  destruct (s !! "confidence") as [[c| |]|]; try discriminate.
  destruct (negb _); [discriminate|].
  destruct (s !! "bias") as [b|]; [|discriminate].
  destruct (negb _); discriminate.
Qed.

Lemma validation_loop_keeps (suggestions acc validated : list pydict) :
  validation_loop suggestions acc = Ok validated →
  ∃ kept, validated = acc ++ kept
          ∧ sublist kept suggestions
          ∧ Forall well_formed kept.
Proof.
  revert acc. induction suggestions as [|s rest IH]; intros acc H.
  - injection H as <-. exists []. rewrite app_nil_r.
    split; [reflexivity|]. split; constructor.
  - simpl in H.
    destruct (_validate_suggestion s) as [[|]|] eqn:Hs; [| |discriminate].
    + destruct (IH _ H) as (kept & -> & Hsub & Hwf).
      exists (s :: kept). rewrite <- app_assoc. split; [reflexivity|].
      split; [apply sublist_skip, Hsub|].
      constructor; [apply validate_true, Hs | exact Hwf].
    + destruct (IH _ H) as (kept & -> & Hsub & Hwf).
      exists kept. split; [reflexivity|].
      split; [apply sublist_cons, Hsub | exact Hwf].
Qed.

Lemma validation_loop_raises (suggestions acc : list pydict) (s : pydict) :
  s ∈ suggestions → (∃ e, _validate_suggestion s = Raise e) →
  ∃ e, validation_loop suggestions acc = Raise e.
Proof.
  intros Hin Hs. revert acc.
  induction suggestions as [|a rest IH]; intros acc.
  - apply elem_of_nil in Hin. contradiction.
  - simpl. apply elem_of_cons in Hin. destruct Hin as [<- | Hin].
    + destruct Hs as [e ->]. eauto.
    + destruct (_validate_suggestion a) as [[|]|e]; eauto.
Qed.

(** What [suggest_stocks] passes on is a sub-list, in order, of the parsed
    suggestions; each one kept has the four required keys, a numeric
    confidence between 0 and 100 and the bias BULLISH or BEARISH, so the
    dictionary the day orchestrator builds from it, for any entry price, is
    a candidate for [allocate_capital] with that confidence and entry
    price.  The validation itself never raises a [KeyError]. *)
Theorem validated_suggestions_are_candidates (suggestions : list pydict) :
  sublist (validated_suggestions suggestions) suggestions
  ∧ (∀ s, s ∈ validated_suggestions suggestions →
       well_formed s
       ∧ ∀ (p : Q) (stock_data entry_details : positive),
           ∃ d, stock_for_allocation s p stock_data entry_details = Ok d
                ∧ candidate d
                ∧ d !! "confidence" = s !! "confidence"
                ∧ d !! "bias" = s !! "bias"
                ∧ 0 <= num d "confidence" ∧ num d "confidence" <= 100
                ∧ num d "entry_price" = p)
  ∧ (∀ s k, _validate_suggestion s ≠ Raise (KeyError k)).
Proof.
  assert (H : ∃ kept, validated_suggestions suggestions = kept
                      ∧ sublist kept suggestions ∧ Forall well_formed kept).
  { unfold validated_suggestions.
    destruct (validation_loop suggestions []) as [v|e] eqn:Hv.
    - destruct (validation_loop_keeps _ _ _ Hv) as (kept & -> & Hs & Hw).
      exists kept. auto.
    - exists []. split; [reflexivity|]. split; [apply sublist_nil_l|].
      constructor. }
  destruct H as (kept & -> & Hsub & Hwf).
  split; [exact Hsub|]. split; [|apply validate_never_key_error].
  intros s Hs. rewrite Forall_forall in Hwf. pose proof (Hwf s Hs) as Hw.
  split; [exact Hw|]. intros p stock_data entry_details.
  destruct Hw as ((c & Hc & Hc0 & Hc1) & Hb & [sym Hsym] & _).
  assert (Hb' : ∃ b, s !! "bias" = Some (VStr b))
    by (destruct Hb as [Hb | Hb]; eauto).
  destruct Hb' as [b Hb'].
  unfold stock_for_allocation, item. rewrite Hsym, Hb', Hc.
  eexists. split; [reflexivity|].
  split.
  { repeat split.
    - exists c. by simplify_map_eq.
    - exists p. by simplify_map_eq.
    - exists (VStr b). by simplify_map_eq. }
  split; [by simplify_map_eq|]. split; [by simplify_map_eq|].
  unfold num. simplify_map_eq. auto.
Qed.

(** One suggestion with the four keys but a confidence that is not a number
    makes the validation raise, and [suggest_stocks] then returns no
    suggestion at all, however many of the others are well formed. *)
Theorem mistyped_confidence_discards_all (suggestions : list pydict)
    (s : pydict) (v : value) :
  s ∈ suggestions →
  forallb (has_key s) required_fields = true →
  s !! "confidence" = Some v → (∀ q, v ≠ VNum q) →
  _validate_suggestion s = Raise TypeError
  ∧ validated_suggestions suggestions = [].
Proof.
  intros Hin Hkeys Hc Hv.
  assert (Hs : _validate_suggestion s = Raise TypeError).
  { unfold _validate_suggestion. rewrite Hkeys. cbn [negb].
    unfold item. rewrite Hc.
    destruct v as [q| |]; [destruct (Hv q eq_refl) | reflexivity..]. }
  split; [exact Hs|]. unfold validated_suggestions.
  destruct (validation_loop_raises suggestions [] s Hin
              (ex_intro _ _ Hs)) as [e ->].
  reflexivity.
Qed.

Lemma mistyped_confidence_discards_all_witness :
  validated_suggestions
    [<["symbol" := VStr "A"]> (<["confidence" := VNum 80]>
       (<["bias" := VStr "BULLISH"]> (<["reason" := VStr "r"]> ∅)));
     <["symbol" := VStr "B"]> (<["confidence" := VStr "85%"]>
       (<["bias" := VStr "BULLISH"]> (<["reason" := VStr "r"]> ∅)))]
  = [].
Proof.
  apply (mistyped_confidence_discards_all _
           (<["symbol" := VStr "B"]> (<["confidence" := VStr "85%"]>
              (<["bias" := VStr "BULLISH"]> (<["reason" := VStr "r"]> ∅))))
           (VStr "85%")).
  - right. left.
  - vm_compute. reflexivity.
  - vm_compute. reflexivity.
  - intros q. discriminate.
Defined.

End SuggestionFacts.

(** ** The summary sheets *)

Section ReportFacts.

Import Reporter Expectancy Spec.

Lemma round_half_even_eq (x y : Q) :
  x == y → round_half_even x = round_half_even y.
Proof.
  intros H. apply Z.le_antisymm; apply round_half_even_mono; lra.
Qed.

Lemma round2_eq (x y : Q) : x == y → round2 x == round2 y.
Proof.
  intros H. unfold round2.
  rewrite (round_half_even_eq (x * 100) (y * 100)) by lra. reflexivity.
Qed.

Lemma round1_eq (x y : Q) : x == y → round1 x == round1 y.
Proof.
  intros H. unfold round1.
  rewrite (round_half_even_eq (x * 10) (y * 10)) by lra. reflexivity.
Qed.

Lemma round1_mono (x y : Q) : x <= y → round1 x <= round1 y.
Proof.
  intros Hxy. unfold round1.
  assert (x * 10 <= y * 10) as H by lra.
  apply round_half_even_mono in H. rewrite Zle_Qle in H.
  unfold Qdiv. change (/ 10) with (1 # 10). lra.
Qed.




Lemma length_remove_dups_le (xs : list string) :
  (length (remove_dups xs) ≤ length xs)%nat.
Proof.
  induction xs as [|x xs IH]; [reflexivity|]. simpl.
  destruct (decide_rel elem_of x xs); simpl; lia.
Qed.

Lemma net_is_profit_less_loss (xs : list Q) :
  Qsum xs == Qsum (above xs) - Qabs (Qsum (below xs))
  ∧ 0 <= Qsum (above xs) ∧ 0 <= Qabs (Qsum (below xs)).
Proof.
  pose proof (Qsum_negatives_le xs) as Hn.
  pose proof (Qsum_positives_ge xs) as Hp.
  unfold above, below. rewrite Qabs_neg by exact Hn.
  split; [rewrite (Qsum_split xs) at 1; ring|].
  split; [exact Hp | lra].
Qed.

Lemma rounded_balance (a b c : Q) :
  a == b - c → Qabs (round2 a - (round2 b - round2 c)) <= 3 # 200.
Proof.
  intros H.
  pose proof (round2_error a) as Ha. pose proof (round2_error b) as Hb.
  pose proof (round2_error c) as Hc.
  apply Qabs_Qle_condition in Ha, Hb, Hc.
  apply Qabs_Qle_condition. split; lra.
Qed.

(** The figures of a row of [Prompt Performance] are consistent: the
    profitable and the losing days are no more than the days, the days no
    more than the trades, the win rate is a percentage, and the net result
    shown differs from the profit less the loss shown by at most a cent and
    a half (the three amounts are rounded separately). *)
Theorem performance_row_is_consistent (prompt_type : string)
    (group : list Trade.t) :
  let r := prompt_performance prompt_type group in
  (ProfitableDays r + LosingDays r ≤ TotalDays r)%nat
  ∧ (TotalDays r ≤ TotalTrades r)%nat
  ∧ (0 <= WinRate r ∧ WinRate r <= 100)
  ∧ 0 <= TotalProfit r ∧ 0 <= TotalLoss r ∧ 0 <= SignalStrength r
  ∧ Qabs (NetProfitLoss r - (TotalProfit r - TotalLoss r)) <= 3 # 200.
Proof.
  cbv zeta. unfold prompt_performance. cbv zeta.
  cbn [ProfitableDays LosingDays TotalDays TotalTrades WinRate TotalProfit
       TotalLoss SignalStrength NetProfitLoss].
  set (pnls := map Trade.net_pnl group).
  destruct (net_is_profit_less_loss pnls) as (Hnet & Hp & Hl).
  split; [apply filter_signs_length|].
  split.
  { unfold daily_pnl_of. rewrite length_map.
    rewrite <- (length_map Trade.date group). apply length_remove_dups_le. }
  split.
  { destruct (0 <? length group)%nat eqn:E;
      [|split; vm_compute; discriminate].
    apply Nat.ltb_lt in E.
    assert (Hn : 0 < inject_Z (Z.of_nat (length group))).
    { change 0 with (inject_Z 0). rewrite <- Zlt_Qlt. lia. }
    assert (Hw : count (above pnls) <= inject_Z (Z.of_nat (length group))).
    { unfold count. rewrite <- Zle_Qle.
      pose proof (filter_signs_length pnls) as Hf. unfold above.
      unfold pnls in Hf at 3. rewrite length_map in Hf. lia. }
    assert (Hw0 : 0 <= count (above pnls)).
    { unfold count. change 0 with (inject_Z 0). rewrite <- Zle_Qle. lia. }
    set (w := count (above pnls) / inject_Z (Z.of_nat (length group))).
    assert (H0 : 0 <= w) by (apply Qle_shift_div_l; lra).
    assert (H1 : w <= 1) by (apply Qle_shift_div_r; lra).
    split.
    - apply Qle_trans with (round1 0); [vm_compute; discriminate|].
      apply round1_mono. lra.
    - apply Qle_trans with (round1 100); [|vm_compute; discriminate].
      apply round1_mono. lra. }
  split; [apply round2_nonneg, Hp|]. split; [apply round2_nonneg, Hl|].
  split.
  { apply round2_nonneg. unfold py_max.
    destruct (Qltb 0 _) eqn:E; [apply Qltb_true in E; lra | apply Qle_refl]. }
  apply rounded_balance, Hnet.
Qed.

(** A row of [Daily Summary] balances up to rounding: the day's result
    shown is the profit less the loss shown, and the closing capital is the
    opening capital plus the day's result, each within a cent and a half;
    the day's status is PROFIT only with a result shown of 0 or more and
    LOSS only with one of 0 or less, and a day that breaks even shows both
    0 and an unchanged capital. *)
Theorem daily_result_balances (daily_capital : Q) (date prompt_type : string)
    (group : list Trade.t) :
  let r := daily_result daily_capital date prompt_type group in
  Qabs (DailyPnL r - (Profit r - Loss r)) <= 3 # 200
  ∧ Qabs (CapitalEnd r - (CapitalStart r + DailyPnL r)) <= 3 # 200
  ∧ 0 <= Profit r ∧ 0 <= Loss r
  ∧ (DayStatus r = Trade.PROFIT →
     0 <= DailyPnL r ∧ CapitalStart r <= CapitalEnd r)
  ∧ (DayStatus r = Trade.LOSS →
     DailyPnL r <= 0 ∧ CapitalEnd r <= CapitalStart r)
  ∧ (DayStatus r = Trade.BREAKEVEN →
     DailyPnL r == 0 ∧ CapitalEnd r == CapitalStart r).
Proof.
  cbv zeta. unfold daily_result. cbv zeta.
  cbn [DailyPnL Profit Loss CapitalEnd CapitalStart DayStatus].
  set (pnls := map Trade.net_pnl group).
  destruct (net_is_profit_less_loss pnls) as (Hnet & Hp & Hl).
  split; [apply rounded_balance, Hnet|].
  split.
  { pose proof (round2_error (daily_capital + Qsum pnls)) as Ha.
    pose proof (round2_error daily_capital) as Hb.
    pose proof (round2_error (Qsum pnls)) as Hc.
    apply Qabs_Qle_condition in Ha, Hb, Hc.
    apply Qabs_Qle_condition. split; lra. }
  split; [apply round2_nonneg, Hp|]. split; [apply round2_nonneg, Hl|].
  destruct (Qltb 0 (Qsum pnls)) eqn:E1.
  { apply Qltb_true in E1.
    split; [|split; discriminate]. intros _.
    split; [apply round2_nonneg | apply round2_mono]; lra. }
  apply Qltb_false in E1.
  destruct (Qltb (Qsum pnls) 0) eqn:E2.
  { apply Qltb_true in E2.
    split; [discriminate|]. split; [|discriminate]. intros _.
    split; [apply round2_nonpos | apply round2_mono]; lra. }
  apply Qltb_false in E2.
  split; [discriminate|]. split; [discriminate|]. intros _.
  split; [apply round2_zero; lra | apply round2_eq; lra].
Qed.

End ReportFacts.
